(** * Stock-AI-Based-Strategy-System: the quantitative analytics core

    A shallow embedding of [src/utils/stockAnalytics.ts] (series generator,
    technical indicator engine, backtest) and of the computation hooks of the
    dashboard page (row adapter, option pricer, Monte Carlo simulator,
    Sharpe allocator), together with the properties stated about them.

    Numbers.  A JavaScript [number] is modelled by a real number with exact
    arithmetic: rounding and overflow of IEEE doubles are outside this
    model, and the statements made in it keep to inputs and bounds on
    which rounding does not decide.  Where the source can divide by zero
    (the option pricer, the Sharpe ratio of the portfolio metrics) the
    special values of IEEE arithmetic are modelled too, see [JsNum].  The
    backtest is modelled a second time over binary64 numbers, see
    [Binary64], to evaluate it where rounding does decide.

    Randomness.  [Math.random()] is modelled by an explicit source
    [rnd : nat -> R]; the k-th call of a run returns [rnd k], and every
    function that draws threads the number of draws made so far. *)

From Stdlib Require Import String Reals Lra Lia Arith ZArith Bool List.
From Stdlib Require Import Sorting.Sorted Sorting.Permutation.
From Stdlib Require Floats.
Import ListNotations.

Set Warnings "-abstract-large-number".

Local Open Scope R_scope.

(* ================================================================= *)
(** ** JavaScript numbers with the IEEE special values *)

Module JsNum.

(** A finite value, one of the two infinities, or NaN.  Signed zeros are not
    distinguished: the zero of the model is the positive zero. *)
Inductive num : Type :=
| Fin (x : R)
| PInf
| NInf
| NaN.

Coercion Fin : R >-> num.

(** The sign of a real as a three-way answer. *)
Definition Rsign (x : R) : comparison :=
  if Rlt_dec 0 x then Gt else if Rlt_dec x 0 then Lt else Eq.

(** Product of signs. *)
Definition smul (a b : comparison) : comparison :=
  match a, b with
  | Eq, _ | _, Eq => Eq
  | Gt, s | s, Gt => s
  | Lt, Lt => Gt
  end.

(** The infinity of a given sign; a zero sign stands for an undefined
    form (0/0, 0 * Infinity) and yields NaN. *)
Definition inf_of (s : comparison) : num :=
  match s with Gt => PInf | Lt => NInf | Eq => NaN end.

(** Sign of a number that is not NaN. *)
Definition sgn (a : num) : comparison :=
  match a with
  | Fin x => Rsign x
  | PInf => Gt
  | NInf => Lt
  | NaN => Eq
  end.

Definition neg (a : num) : num :=
  match a with
  | Fin x => Fin (- x)
  | PInf => NInf
  | NInf => PInf
  | NaN => NaN
  end.

Definition add (a b : num) : num :=
  match a, b with
  | Fin x, Fin y => Fin (x + y)
  | NaN, _ | _, NaN => NaN
  | PInf, NInf | NInf, PInf => NaN
  | PInf, _ | _, PInf => PInf
  | NInf, _ | _, NInf => NInf
  end.

Definition sub (a b : num) : num := add a (neg b).

Definition mul (a b : num) : num :=
  match a, b with
  | Fin x, Fin y => Fin (x * y)
  | NaN, _ | _, NaN => NaN
  | _, _ => inf_of (smul (sgn a) (sgn b))
  end.

(** [x / 0] is an infinity of the sign of [x], and [0 / 0] is NaN. *)
Definition div (a b : num) : num :=
  match a, b with
  | Fin x, Fin y => if Req_dec_T y 0 then inf_of (Rsign x) else Fin (x / y)
  | NaN, _ | _, NaN => NaN
  | Fin _, _ => Fin 0
  | _, Fin y => inf_of (smul (sgn a) (if Rlt_dec y 0 then Lt else Gt))
  | _, _ => NaN
  end.

(** [Math.log] *)
Definition log (a : num) : num :=
  match a with
  | Fin x => if Rlt_dec x 0 then NaN
             else if Req_dec_T x 0 then NInf else Fin (ln x)
  | PInf => PInf
  | NInf | NaN => NaN
  end.

(** [Math.sqrt] *)
Definition sqrt (a : num) : num :=
  match a with
  | Fin x => if Rlt_dec x 0 then NaN else Fin (R_sqrt.sqrt x)
  | PInf => PInf
  | NInf | NaN => NaN
  end.

(** [Math.exp] *)
Definition exp (a : num) : num :=
  match a with
  | Fin x => Fin (Rtrigo_def.exp x)
  | PInf => PInf
  | NInf => Fin 0
  | NaN => NaN
  end.

(** [Math.sign] *)
Definition sign (a : num) : num :=
  match a with
  | NaN => NaN
  | _ => match sgn a with Gt => Fin 1 | Lt => Fin (-1) | Eq => Fin 0 end
  end.

(** [Math.abs] *)
Definition abs (a : num) : num :=
  match a with
  | Fin x => Fin (Rabs x)
  | PInf | NInf => PInf
  | NaN => NaN
  end.

(** [Math.max]: NaN as soon as one argument is NaN. *)
Definition max (a b : num) : num :=
  match a, b with
  | Fin x, Fin y => Fin (Rmax x y)
  | NaN, _ | _, NaN => NaN
  | PInf, _ | _, PInf => PInf
  | NInf, o | o, NInf => o
  end.

(** [a > b]: false as soon as one argument is NaN. *)
Definition gt (a b : num) : bool :=
  match a, b with
  | Fin x, Fin y => if Rlt_dec y x then true else false
  | NaN, _ | _, NaN => false
  | _, PInf => false
  | PInf, _ => true
  | NInf, _ => false
  | _, NInf => true
  end.

(** [a >= b] *)
Definition ge (a b : num) : bool :=
  match a, b with
  | Fin x, Fin y => if Rle_dec y x then true else false
  | NaN, _ | _, NaN => false
  | PInf, _ => true
  | _, NInf => true
  | _, _ => false
  end.

Definition pi : num := Fin PI.

End JsNum.

Declare Scope js_scope.
Delimit Scope js_scope with js.
Bind Scope js_scope with JsNum.num.
Notation "a + b" := (JsNum.add a b) : js_scope.
Notation "a - b" := (JsNum.sub a b) : js_scope.
Notation "a * b" := (JsNum.mul a b) : js_scope.
Notation "a / b" := (JsNum.div a b) : js_scope.
Notation "- a" := (JsNum.neg a) : js_scope.

(* ================================================================= *)
(** ** Values shared by the analytics functions *)

Module Js.

(** [a || b] on numbers: the first operand unless it is zero. *)
Definition orElse (a b : R) : R := if Req_dec_T a 0 then b else a.

(** Truthiness of an optional numeric field: present and not zero. *)
Definition truthy (o : option R) : bool :=
  match o with
  | Some x => if Req_dec_T x 0 then false else true
  | None => false
  end.

(** [o || b] on an optional numeric field. *)
Definition orDefault (o : option R) (b : R) : R :=
  match o with
  | Some x => orElse x b
  | None => b
  end.

Definition Rgtb (a b : R) : bool := if Rlt_dec b a then true else false.
Definition Rltb (a b : R) : bool := if Rlt_dec a b then true else false.
Definition Rgeb (a b : R) : bool := if Rle_dec b a then true else false.
Definition Rleb (a b : R) : bool := if Rle_dec a b then true else false.

(** [Math.floor] *)
Definition floor (x : R) : R := IZR (Zfloor x).

(** [arr.slice(a, b)] for [0 <= a]. *)
Definition slice {A : Type} (a b : nat) (l : list A) : list A :=
  firstn (b - a) (skipn a l).

(** [arr.reduce((sum, x) => sum + x, 0)] *)
Definition sum (l : list R) : R := fold_left Rplus l 0.

(** [arr[i] = f(arr[i])] for an index inside the array. *)
Fixpoint update {A : Type} (i : nat) (f : A -> A) (l : list A) : list A :=
  match l, i with
  | [], _ => []
  | x :: l', O => f x :: l'
  | x :: l', S i' => x :: update i' f l'
  end.

End Js.

(* ================================================================= *)
(** ** [src/utils/stockAnalytics.ts] *)

Module Analytics.
Import Js.

(** [interface StockData]: the six base fields and the optional derived
    fields, absent ([None]) until the indicator engine attaches them. *)
Record StockData : Type := mkStockData {
  date : string;
  open : R;
  high : R;
  low : R;
  close : R;
  volume : R;
  ma20 : option R;
  ma50 : option R;
  rsi : option R;
  macd : option R;
  macdSignal : option R;
  upperBB : option R;
  lowerBB : option R;
  portfolio : option R;
  benchmark : option R;
  prediction : option R
}.

(** A point as the generator and the row adapter push it: base fields only. *)
Definition rawPoint (d : string) (o h l c v : R) : StockData :=
  mkStockData d o h l c v None None None None None None None None None None.

(** Assignments [p.field = v]. *)
Definition set_ma20 (v : R) (p : StockData) : StockData :=
  mkStockData (date p) (open p) (high p) (low p) (close p) (volume p)
    (Some v) (ma50 p) (rsi p) (macd p) (macdSignal p) (upperBB p) (lowerBB p)
    (portfolio p) (benchmark p) (prediction p).
Definition set_ma50 (v : R) (p : StockData) : StockData :=
  mkStockData (date p) (open p) (high p) (low p) (close p) (volume p)
    (ma20 p) (Some v) (rsi p) (macd p) (macdSignal p) (upperBB p) (lowerBB p)
    (portfolio p) (benchmark p) (prediction p).
Definition set_rsi (v : R) (p : StockData) : StockData :=
  mkStockData (date p) (open p) (high p) (low p) (close p) (volume p)
    (ma20 p) (ma50 p) (Some v) (macd p) (macdSignal p) (upperBB p) (lowerBB p)
    (portfolio p) (benchmark p) (prediction p).
Definition set_macd (v : R) (p : StockData) : StockData :=
  mkStockData (date p) (open p) (high p) (low p) (close p) (volume p)
    (ma20 p) (ma50 p) (rsi p) (Some v) (macdSignal p) (upperBB p) (lowerBB p)
    (portfolio p) (benchmark p) (prediction p).
Definition set_macdSignal (v : R) (p : StockData) : StockData :=
  mkStockData (date p) (open p) (high p) (low p) (close p) (volume p)
    (ma20 p) (ma50 p) (rsi p) (macd p) (Some v) (upperBB p) (lowerBB p)
    (portfolio p) (benchmark p) (prediction p).
Definition set_upperBB (v : R) (p : StockData) : StockData :=
  mkStockData (date p) (open p) (high p) (low p) (close p) (volume p)
    (ma20 p) (ma50 p) (rsi p) (macd p) (macdSignal p) (Some v) (lowerBB p)
    (portfolio p) (benchmark p) (prediction p).
Definition set_lowerBB (v : R) (p : StockData) : StockData :=
  mkStockData (date p) (open p) (high p) (low p) (close p) (volume p)
    (ma20 p) (ma50 p) (rsi p) (macd p) (macdSignal p) (upperBB p) (Some v)
    (portfolio p) (benchmark p) (prediction p).
Definition set_portfolio (v : R) (p : StockData) : StockData :=
  mkStockData (date p) (open p) (high p) (low p) (close p) (volume p)
    (ma20 p) (ma50 p) (rsi p) (macd p) (macdSignal p) (upperBB p) (lowerBB p)
    (Some v) (benchmark p) (prediction p).
Definition set_benchmark (v : R) (p : StockData) : StockData :=
  mkStockData (date p) (open p) (high p) (low p) (close p) (volume p)
    (ma20 p) (ma50 p) (rsi p) (macd p) (macdSignal p) (upperBB p) (lowerBB p)
    (portfolio p) (Some v) (prediction p).
Definition set_prediction (v : R) (p : StockData) : StockData :=
  mkStockData (date p) (open p) (high p) (low p) (close p) (volume p)
    (ma20 p) (ma50 p) (rsi p) (macd p) (macdSignal p) (upperBB p) (lowerBB p)
    (portfolio p) (benchmark p) (Some v).

(** [arr[j].close]; every index the source reads is inside the array. *)
Definition closeAt (j : nat) (l : list StockData) : R :=
  match nth_error l j with
  | Some p => close p
  | None => 0
  end.

(** [arr.reduce((sum, item) => sum + item.close, 0)] *)
Definition sumClose (l : list StockData) : R := sum (map close l).

(** [calculateEMA] *)
Definition calculateEMA (data : list StockData) (period : R) : R :=
  let multiplier := 2 / (period + 1) in
  fold_left (fun ema p => close p * multiplier + ema * (1 - multiplier))
            (tl data) (closeAt 0 data).

(** The day-over-day changes read by the RSI loop, [j = i-13 .. i]. *)
Definition rsiChanges (i : nat) (result : list StockData) : list R :=
  map (fun j => closeAt j result - closeAt (j - 1) result) (seq (i - 13) 14).

Definition gains (changes : list R) : list R :=
  filter (fun c => Rgtb c 0) changes.

Definition losses (changes : list R) : list R :=
  map Rabs (filter (fun c => negb (Rgtb c 0)) changes).

Definition rsiValue (i : nat) (result : list StockData) : R :=
  let changes := rsiChanges i result in
  let avgGain := sum (gains changes) / 14 in
  let avgLoss := sum (losses changes) / 14 in
  let rs := avgGain / orElse avgLoss 1 in
  100 - 100 / (1 + rs).

(** [item.macd || 0] *)
Definition macdOrZero (p : StockData) : R := orDefault (macd p) 0.

(** Mean and standard deviation of the 20-point Bollinger window. *)
Definition bbSma (window : list StockData) : R := sumClose window / 20.

Definition bbStdDev (window : list StockData) : R :=
  let sma := bbSma window in
  let variance := sum (map (fun p => (close p - sma) ^ 2) window) / 20 in
  sqrt variance.

Section Random.
(** The random source and, for the generator, the calendar: [isoDate z] is
    the ISO date of the day [z] days after today. *)
Variable rnd : nat -> R.
Variable isoDate : Z -> string.

(** One iteration of the loop of [calculateTechnicalIndicators], on the
    array as it stands and the number [k] of draws made so far. *)
Definition annotateStep (st : list StockData * nat) (i : nat)
  : list StockData * nat :=
  let '(result, k) := st in
  let result :=
    if 19 <=? i
    then update i (set_ma20 (sumClose (slice (i - 19) (i + 1) result) / 20)) result
    else result in
  let result :=
    if 49 <=? i
    then update i (set_ma50 (sumClose (slice (i - 49) (i + 1) result) / 50)) result
    else result in
  let result :=
    if 14 <=? i then update i (set_rsi (rsiValue i result)) result else result in
  let result :=
    if 26 <=? i
    then
      let ema12 := calculateEMA (slice 0 (i + 1) result) 12 in
      let ema26 := calculateEMA (slice 0 (i + 1) result) 26 in
      let result := update i (set_macd (ema12 - ema26)) result in
      if 34 <=? i
      then
        let macdValues := map macdOrZero (slice (i - 8) (i + 1) result) in
        update i (set_macdSignal (sum macdValues / 9)) result
      else result
    else result in
  let result :=
    if 19 <=? i
    then
      let window := slice (i + 1 - 20) (i + 1) result in
      let sma := bbSma window in
      let stdDev := bbStdDev window in
      update i (set_lowerBB (sma - 2 * stdDev))
        (update i (set_upperBB (sma + 2 * stdDev)) result)
    else result in
  let result :=
    update i (set_portfolio (closeAt i result * (1 + rnd k * 0.1))) result in
  let result :=
    update i (set_benchmark (closeAt i result * (1 + rnd (k + 1) * 0.05))) result in
  if Rgtb (rnd (k + 2)) 0.5
  then (update i (set_prediction
                    (closeAt i result * (1 + (rnd (k + 3) - 0.5) * 0.1))) result,
        (k + 4)%nat)
  else (result, (k + 3)%nat).

(** [calculateTechnicalIndicators]: the points of [data] are updated in
    place through the copied array, index by index.  The second component
    is the number of draws made so far. *)
Definition calculateTechnicalIndicators (data : list StockData) (k : nat)
  : list StockData * nat :=
  fold_left annotateStep (seq 0 (length data)) (data, k).

(** [getBasePriceForSymbol]: [basePrices[symbol] || 100]. *)
Definition basePrices : list (string * R) :=
  [("TSLA", 250); ("AAPL", 180); ("GOOGL", 140); ("MSFT", 350);
   ("AMZN", 145); ("NVDA", 450); ("META", 280); ("BTC-USD", 45000);
   ("CUSTOM", 100); ("FORECAST", 250)]%string.

Fixpoint lookup (key : string) (table : list (string * R)) : option R :=
  match table with
  | [] => None
  | (k, v) :: rest => if String.eqb key k then Some v else lookup key rest
  end.

(** The names that [basePrices], as every object literal, inherits from
    [Object.prototype]: indexed by one of them the table yields a function
    or an object, which is truthy and is not a number. *)
Definition objectPrototypeNames : list string :=
  ["__defineGetter__"; "__defineSetter__"; "__lookupGetter__";
   "__lookupSetter__"; "__proto__"; "constructor"; "hasOwnProperty";
   "isPrototypeOf"; "propertyIsEnumerable"; "toLocaleString"; "toString";
   "valueOf"]%string.

Definition inherited (symbol : string) : bool :=
  existsb (String.eqb symbol) objectPrototypeNames.

(** [getBasePriceForSymbol]: the entry of the table or 100; [None] is the
    inherited member that the function returns for a name of
    [objectPrototypeNames], a value that is not a number. *)
Definition getBasePriceForSymbol (symbol : string) : option R :=
  match lookup symbol basePrices with
  | Some price => Some (orElse price 100)
  | None => if inherited symbol then None else Some 100
  end.

(** The number [currentPrice] starts from.  A base price that is not a
    number makes every price of the loop NaN; the state of the loop below
    holds numbers only, [generateMockStockData] is [None] for such a
    symbol, and the start is immaterial then. *)
Definition initialPrice (symbol : string) : R :=
  match getBasePriceForSymbol symbol with
  | Some basePrice => basePrice
  | None => 0
  end.

(** The constants of the generator loop. *)
Definition volatility : R := 0.02.
Definition drift : R := 0.0002.

(** [randomChange] for a draw [u] of [Math.random()]. *)
Definition randomChange (u : R) : R := (u - 0.5) * volatility.

(** [currentPrice = currentPrice * (1 + drift + randomChange)] *)
Definition nextPrice (currentPrice u : R) : R :=
  currentPrice * (1 + drift + randomChange u).

(** One iteration of the loop of [generateMockStockData]: the state is the
    current price, the number of draws made and the points pushed so far. *)
Definition generateStep (days : nat) (st : R * nat * list StockData) (i : nat)
  : R * nat * list StockData :=
  let '(currentPrice, k, data) := st in
  let currentPrice := nextPrice currentPrice (rnd k) in
  let high := currentPrice * (1 + rnd (k + 1) * 0.02) in
  let low := currentPrice * (1 - rnd (k + 2) * 0.02) in
  let open := low + rnd (k + 3) * (high - low) in
  let close := low + rnd (k + 4) * (high - low) in
  let volume := floor (rnd (k + 5) * 10000000) + 1000000 in
  (currentPrice, (k + 6)%nat,
   data ++ [rawPoint (isoDate (Z.of_nat i - Z.of_nat days)) open high low close volume]).

(** The state of the loop after its first [n] iterations. *)
Definition generatePrefix (symbol : string) (days k n : nat)
  : R * nat * list StockData :=
  fold_left (generateStep days) (seq 0 n) (initialPrice symbol, k, []).

Definition generateLoop (symbol : string) (days k : nat)
  : R * nat * list StockData :=
  generatePrefix symbol days k days.

(** [generateMockStockData]: the annotated series and the number of draws
    made; [None] when the base price is not a number (the prices of the
    series are NaN then). *)
Definition generateMockStockData (symbol : string) (days k : nat)
  : option (list StockData * nat) :=
  match getBasePriceForSymbol symbol with
  | Some _ =>
      let '(_, k', data) := generateLoop symbol days k in
      Some (calculateTechnicalIndicators data k')
  | None => None
  end.

End Random.

(** [backtestStrategy] *)
Module Backtest.

Record BacktestRecord : Type := mkRecord {
  date : string;
  value : R;
  return_ : R
}.

(** The value of a field that the guard has found truthy. *)
Definition num (o : option R) : R :=
  match o with Some x => x | None => 0 end.

(** The point read at an index of the loop (always inside the array). *)
Definition pointAt (i : nat) (data : list StockData) : StockData :=
  nth i data (rawPoint "" 0 0 0 0 0).

(** One iteration of the loop: capital, shares and the records pushed. *)
Definition backtestStep (data : list StockData)
  (st : R * R * list BacktestRecord) (i : nat) : R * R * list BacktestRecord :=
  let '(capital, shares, results) := st in
  let current := pointAt i data in
  let prev := pointAt (i - 1) data in
  let '(capital, shares) :=
    if truthy (ma20 current) && truthy (ma50 current)
       && truthy (ma20 prev) && truthy (ma50 prev)
    then
      if Rgtb (num (ma20 current)) (num (ma50 current))
         && Rleb (num (ma20 prev)) (num (ma50 prev)) && Rgtb capital 0
      then
        let shares := floor (capital / close current) in
        (capital - shares * close current, shares)
      else if Rltb (num (ma20 current)) (num (ma50 current))
              && Rgeb (num (ma20 prev)) (num (ma50 prev)) && Rgtb shares 0
      then (capital + shares * close current, 0)
      else (capital, shares)
    else (capital, shares) in
  let totalValue := capital + shares * close current in
  (capital, shares,
   results ++ [mkRecord (Analytics.date current) totalValue
                        ((totalValue - 10000) / 10000 * 100)]).

Definition backtestStrategy (data : list StockData) : list BacktestRecord :=
  let '(_, _, results) :=
    fold_left (backtestStep data) (seq 50 (length data - 50)) (10000, 0, []) in
  results.

End Backtest.

End Analytics.

(* ================================================================= *)
(** ** The option pricer ([calculateOptionPrice] of the dashboard page) *)

Module OptionPricer.
Import JsNum.

Record OptionQuote : Type := mkQuote { call : num; put : num }.

(** [normCDF]: the closed-form approximation of the standard normal CDF. *)
Definition normCDF (x : num) : num :=
  (0.5 * (1 + sign x * sqrt (1 - exp (- (2:R) * x * x / pi))))%js.

Section Pricer.
(** Spot, strike, days to expiry, risk-free rate (percent) and volatility
    (percent), as the page state holds them. *)
Variables S K daysToExpiry riskFreeRate volatility : R.


Definition T : num := (daysToExpiry / 365)%js.
Definition r : num := (riskFreeRate / 100)%js.
Definition sigma : num := (volatility / 100)%js.

Definition d1 : num :=
  ((log (S / K) + (r + 0.5 * sigma * sigma) * T) / (sigma * sqrt T))%js.
Definition d2 : num := (d1 - sigma * sqrt T)%js.

(** The base price. *)
Definition callBase : num :=
  (S * normCDF d1 - K * exp (- r * T) * normCDF d2)%js.

Definition timeDecayFactor : num := max 0.1 T.
Definition volatilityPremium : num := (sigma * S * 0.1)%js.
Definition moneynessFactor : num := (abs (S - K) / K)%js.

(** [callPrice] after the in/out of the money adjustment. *)
Definition callAdjusted : num :=
  if gt S K
  then (callBase + volatilityPremium * (1 + moneynessFactor))%js
  else max callBase (timeDecayFactor * sigma * S * 0.05)%js.

(** [callPrice] after "Ensure minimum realistic value". *)
Definition callPrice : num := max callAdjusted 0.01.

(** [putPrice], by put-call parity from [callPrice]. *)
Definition putPrice : num := (callPrice + K * exp (- r * T) - S)%js.

(** The quote stored by [setOptionPricing]. *)
Definition priceAt : OptionQuote :=
  {| call := max callPrice 0.01; put := max putPrice 0.01 |}.

End Pricer.

(** [stockData[stockData.length - 1]?.close || strikePrice] *)
Definition spotPrice (stockData : list Analytics.StockData) (strikePrice : R) : R :=
  match last (map Some stockData) None with
  | Some p => Js.orElse (Analytics.close p) strikePrice
  | None => strikePrice
  end.

(** [calculateOptionPrice], on the page state it reads. *)
Definition calculateOptionPrice (stockData : list Analytics.StockData)
  (strikePrice daysToExpiry riskFreeRate volatility : R) : OptionQuote :=
  priceAt (spotPrice stockData strikePrice) strikePrice
          daysToExpiry riskFreeRate volatility.

End OptionPricer.

(* ================================================================= *)
(** ** The Monte Carlo simulator ([runMonteCarloSimulation]) *)

Module MonteCarlo.

Record MonteCarloResults : Type := mkResults {
  expectedValue : R;
  var95 : option R;
  var99 : option R;
  confidence95 : option R;
  confidence99 : option R;
  simulations : list R
}.

(** [results.sort((a, b) => a - b)]: ascending order. *)
Fixpoint insertAsc (x : R) (l : list R) : list R :=
  match l with
  | [] => [x]
  | y :: l' => if Rle_dec x y then x :: l else y :: insertAsc x l'
  end.

Fixpoint sortAsc (l : list R) : list R :=
  match l with
  | [] => []
  | x :: l' => insertAsc x (sortAsc l')
  end.

(** [Math.floor(x)] as an array index. *)
Definition floorIndex (x : R) : nat := Z.to_nat (Zfloor x).

(** [stockData[stockData.length - 1]?.close || 100] *)
Definition startPrice (stockData : list Analytics.StockData) : R :=
  match last (map Some stockData) None with
  | Some p => Js.orElse (Analytics.close p) 100
  | None => 100
  end.

Definition dailyReturn : R := 0.0008.
Definition dailyVolatility : R := 0.02.

Section Run.
Variable rnd : nat -> R.

(** [randomShock] for the draw number [k]. *)
Definition randomShock (k : nat) : R := (rnd k - 0.5) * dailyVolatility * 2.

(** The inner loop: [days] steps from [price], drawing from number [k]. *)
Fixpoint simulatePath (days : nat) (price : R) (k : nat) : R * nat :=
  match days with
  | O => (price, k)
  | S d => simulatePath d (price * (1 + dailyReturn + randomShock k)) (S k)
  end.

(** The outer loop: the terminal prices of [n] trials in the order in which
    they are pushed, and the number of draws made. *)
Fixpoint runTrials (n timeHorizon : nat) (start : R) (k : nat) : list R * nat :=
  match n with
  | O => ([], k)
  | S n' =>
      let '(price, k1) := simulatePath timeHorizon start k in
      let '(rest, k2) := runTrials n' timeHorizon start k1 in
      (price :: rest, k2)
  end.

(** The body of [runMonteCarloSimulation] for [nSimulations] trials over
    [timeHorizon] days.  [sort] works in place: after it, [results] is the
    sorted array, and it is the one the quantiles, the mean and the sample
    are read from. *)
Definition simulate (nSimulations timeHorizon : nat)
  (stockData : list Analytics.StockData) (k : nat) : MonteCarloResults * nat :=
  let '(trials, k') :=
    runTrials nSimulations timeHorizon (startPrice stockData) k in
  let results := sortAsc trials in
  let var95 := nth_error results (floorIndex (INR nSimulations * 0.05)) in
  let var99 := nth_error results (floorIndex (INR nSimulations * 0.01)) in
  let expectedValue := Js.sum results / INR nSimulations in
  (mkResults expectedValue var95 var99 var95 var99 (Js.slice 0 100 results), k').

(** [runMonteCarloSimulation]: 10000 trials over 252 days. *)
Definition runMonteCarloSimulation (stockData : list Analytics.StockData)
  (k : nat) : MonteCarloResults * nat :=
  simulate 10000 252 stockData k.

(** The terminal prices of the run, as pushed (in trial order). *)
Definition trialsOf (stockData : list Analytics.StockData) (k : nat) : list R :=
  fst (runTrials 10000 252 (startPrice stockData) k).

End Run.

End MonteCarlo.

(* ================================================================= *)
(** ** The Sharpe allocator ([optimizePortfolio]) *)

Module Portfolio.

Record OptimizedPortfolio : Type := mkPortfolio {
  assets : list string;
  weights : list R;
  expectedReturn : R;
  expectedVolatility : R
}.

(** [arr.map((x, i) => f(x, i))] *)
Fixpoint mapi_from {A B : Type} (i : nat) (f : A -> nat -> B) (l : list A)
  : list B :=
  match l with
  | [] => []
  | x :: l' => f x i :: mapi_from (S i) f l'
  end.

Definition mapi {A B : Type} (f : A -> nat -> B) (l : list A) : list B :=
  mapi_from 0 f l.

(** [arr[i]] on an array of numbers; the arrays of the allocator are
    parallel, so that every index read is inside. *)
Definition at_ (l : list R) (i : nat) : R := nth i l 0.

Definition sharpeRatios (returns volatilities : list R) : list R :=
  mapi (fun ret i => ret / at_ volatilities i) returns.

Definition totalSharpe (returns volatilities : list R) : R :=
  Js.sum (sharpeRatios returns volatilities).

Definition optimalWeights (returns volatilities : list R) : list R :=
  map (fun sharpe => sharpe / totalSharpe returns volatilities * 100)
      (sharpeRatios returns volatilities).

(** The allocation computed from the three parallel arrays. *)
Definition allocate (assets : list string) (returns volatilities : list R)
  : OptimizedPortfolio :=
  let w := optimalWeights returns volatilities in
  {| assets := assets;
     weights := w;
     expectedReturn :=
       Js.sum (mapi (fun ret i => ret * (at_ w i / 100)) returns);
     expectedVolatility :=
       sqrt (Js.sum (mapi (fun vol i => (vol * (at_ w i / 100)) ^ 2)
                          volatilities)) |}.

(** [optimizePortfolio]: the allocation of the hard-coded universe. *)
Definition optimizePortfolio : OptimizedPortfolio :=
  allocate ["Tech"; "Healthcare"; "Finance"; "Energy"; "Consumer"]%string
           [0.12; 0.08; 0.06; 0.10; 0.07]
           [0.20; 0.15; 0.12; 0.25; 0.14].

End Portfolio.

(* ================================================================= *)
(** ** The row adapter ([handleCustomDataProcessed]) *)

Module RowAdapter.

(** An ingested row, restricted to the keys the adapter reads: the date keys
    hold strings and the price and volume keys hold numbers; a key the row
    lacks is [None]. *)
Record Row : Type := mkRow {
  date : option string;
  Date : option string;
  open : option R;
  Open : option R;
  high : option R;
  High : option R;
  low : option R;
  Low : option R;
  close : option R;
  Close : option R;
  price : option R;
  Price : option R;
  volume : option R;
  Volume : option R
}.

(** A row with none of the keys. *)
Definition emptyRow : Row :=
  mkRow None None None None None None None None None None None None None None.

(** [a || b] with a numeric field on the left: the field when it is present
    and not zero. *)
Definition orNum (o : option R) (b : R) : R := Js.orDefault o b.

(** [a || b] with a string field on the left: the field when it is present
    and not empty. *)
Definition orStr (o : option string) (b : string) : string :=
  match o with
  | Some s => if String.eqb s "" then b else s
  | None => b
  end.

Section Convert.
Variable rnd : nat -> R.
(** [new Date().toISOString().split('T')[0]] *)
Variable today : string.

(** The object built for one row; the random filler of [volume] is drawn
    only when neither volume key is truthy. *)
Definition convertRow (item : Row) (k : nat) : Analytics.StockData * nat :=
  let needFiller :=
    negb (Js.truthy (volume item)) && negb (Js.truthy (Volume item)) in
  (Analytics.rawPoint
     (orStr (date item) (orStr (Date item) today))
     (orNum (open item) (orNum (Open item) (orNum (close item) (orNum (Close item) 100))))
     (orNum (high item) (orNum (High item) (orNum (close item) (orNum (Close item) 100))))
     (orNum (low item) (orNum (Low item) (orNum (close item) (orNum (Close item) 100))))
     (orNum (close item) (orNum (Close item) (orNum (price item) (orNum (Price item) 100))))
     (orNum (volume item) (orNum (Volume item) (Js.floor (rnd k * 1000000)))),
   if needFiller then S k else k).

(** [data.map(item => ...)] *)
Fixpoint convertRows (data : list Row) (k : nat)
  : list Analytics.StockData * nat :=
  match data with
  | [] => ([], k)
  | item :: rest =>
      let '(p, k1) := convertRow item k in
      let '(ps, k2) := convertRows rest k1 in
      (p :: ps, k2)
  end.

(** [handleCustomDataProcessed]: the new value of the [stockData] state. *)
Definition handleCustomDataProcessed (data : list Row)
  (stockData : list Analytics.StockData) (k : nat)
  : list Analytics.StockData * nat :=
  let '(convertedData, k') := convertRows data k in
  match convertedData with
  | [] => (stockData, k')
  | _ => Analytics.calculateTechnicalIndicators rnd convertedData k'
  end.

End Convert.

End RowAdapter.

(* ================================================================= *)
(** ** [calculatePortfolioMetrics] and [calculateMaxDrawdown] *)

Module Metrics.
Import Analytics.

Record PortfolioMetrics : Type := mkMetrics {
  avgReturn : R;
  volatility : R;
  var95 : option R;
  var99 : option R;
  sharpeRatio : JsNum.num;
  maxDrawdown : R
}.

(** One iteration of the loop of [calculateMaxDrawdown] on the pair
    [(maxDrawdown, peak)]. *)
Definition drawdownStep (st : R * R) (item : StockData) : R * R :=
  let '(maxDrawdown, peak) := st in
  let peak := if Js.Rgtb (close item) peak then close item else peak in
  let drawdown := (peak - close item) / peak in
  (if Js.Rgtb drawdown maxDrawdown then drawdown else maxDrawdown, peak).

(** [calculateMaxDrawdown]: reading [data[0].close] of an empty array
    throws, which is [None] here. *)
Definition calculateMaxDrawdown (data : list StockData) : option R :=
  match data with
  | [] => None
  | first :: _ => Some (fst (fold_left drawdownStep data (0, close first)))
  end.

(** [data.slice(1).map((item, i) => (item.close - data[i].close) / data[i].close)] *)
Definition dailyReturns (data : list StockData) : list R :=
  Portfolio.mapi (fun item i => (close item - closeAt i data) / closeAt i data)
                 (Js.slice 1 (length data) data).

(** [calculatePortfolioMetrics]; it throws with [calculateMaxDrawdown] on an
    empty series.  The Sharpe ratio divides by a volatility that is zero
    when all the returns are equal: it is an infinity or NaN then.  On a
    series of a single point there is no return and the averages of the
    code are NaN (0/0): the numbers of the record stand for the code's on
    series of at least two points. *)
Definition calculatePortfolioMetrics (data : list StockData)
  : option PortfolioMetrics :=
  let returns := dailyReturns data in
  let n := INR (length returns) in
  let avgReturn := Js.sum returns / n in
  let variance := Js.sum (map (fun r => (r - avgReturn) ^ 2) returns) / n in
  let volatility := sqrt (variance * 252) in
  let sortedReturns := MonteCarlo.sortAsc returns in
  let var95 := nth_error sortedReturns (MonteCarlo.floorIndex (n * 0.05)) in
  let var99 := nth_error sortedReturns (MonteCarlo.floorIndex (n * 0.01)) in
  let riskFreeRate := 0.02 in
  let sharpeRatio :=
    JsNum.div (JsNum.Fin (avgReturn * 252 - riskFreeRate)) (JsNum.Fin volatility) in
  match calculateMaxDrawdown data with
  | None => None
  | Some maxDrawdown =>
      Some (mkMetrics (avgReturn * 252) volatility var95 var99 sharpeRatio
                      maxDrawdown)
  end.

End Metrics.

(* ================================================================= *)
(** ** [generateVolatilitySurface] *)

Module Surface.

Record SurfacePoint : Type := mkPoint {
  strike : R;
  expiration : R;
  volatility : R
}.

Definition strikes : list R := [80; 90; 100; 110; 120].
Definition expirations : list R := [30; 60; 90; 180; 365].

Section Grid.
Variable rnd : nat -> R.

(** The inner loop: one point per strike for a given expiration. *)
Fixpoint strikeLoop (ks : list R) (e : R) (k : nat) : list SurfacePoint * nat :=
  match ks with
  | [] => ([], k)
  | s :: ks' =>
      let p := mkPoint s e (0.15 + rnd k * 0.3) in
      let '(ps, k') := strikeLoop ks' e (S k) in
      (p :: ps, k')
  end.

(** The outer loop over the expirations. *)
Fixpoint expirationLoop (es ks : list R) (k : nat) : list SurfacePoint * nat :=
  match es with
  | [] => ([], k)
  | e :: es' =>
      let '(ps, k1) := strikeLoop ks e k in
      let '(qs, k2) := expirationLoop es' ks k1 in
      (ps ++ qs, k2)
  end.

Definition generateVolatilitySurface (k : nat) : list SurfacePoint * nat :=
  expirationLoop expirations strikes k.

End Grid.

End Surface.

(* ================================================================= *)
(** ** [runBlackLitterman] *)

Module BlackLitterman.

Record BlackLittermanResults : Type := mkResults {
  assets : list string;
  marketWeights : list R;
  expectedReturns : list R;
  optimalWeights : list R;
  views : list (string * R)
}.

(** [views[asset]], where [asset] is [assets[i]] and may be missing. *)
Definition viewOf (views : list (string * R)) (asset : option string) : option R :=
  match asset with
  | Some a => Analytics.lookup a views
  | None => None
  end.

(** The blended return of the asset at index [i]: the mean of the prior
    and the view when the view is truthy, the prior otherwise. *)
Definition blend (assets : list string) (views : list (string * R))
  (ret : R) (i : nat) : R :=
  let view := viewOf views (nth_error assets i) in
  if Js.truthy view
  then (ret + Analytics.Backtest.num view) / 2
  else ret.

Definition blReturns (assets : list string) (views : list (string * R))
  (expectedReturns : list R) : list R :=
  Portfolio.mapi (blend assets views) expectedReturns.

(** The body of [runBlackLitterman] on its five constants. *)
Definition blackLitterman (assets : list string) (marketWeights expectedReturns : list R)
  (views : list (string * R)) : BlackLittermanResults :=
  let rets := blReturns assets views expectedReturns in
  let totalReturn := Js.sum rets in
  {| assets := assets;
     marketWeights := marketWeights;
     expectedReturns := rets;
     optimalWeights := map (fun ret => ret / totalReturn) rets;
     views := views |}.

Definition runBlackLitterman : BlackLittermanResults :=
  blackLitterman ["Stocks"; "Bonds"; "Commodities"; "REITs"]%string
                 [0.6; 0.3; 0.05; 0.05]
                 [0.08; 0.04; 0.06; 0.07]
                 [("Stocks", 0.10); ("Bonds", 0.03)]%string.

End BlackLitterman.

(* ================================================================= *)
(** ** [handleStockChange] *)

Module Page.

(** [generateOptionPricingData]: a constant record. *)
Record OptionPricingData : Type := mkPricingData {
  callPrice : R;
  putPrice : R;
  impliedVolatility : R;
  delta : R;
  gamma : R;
  theta : R;
  vega : R;
  rho : R
}.

Definition generateOptionPricingData : OptionPricingData :=
  mkPricingData 12.45 8.92 0.25 0.65 0.03 (-0.12) 0.18 0.08.

Record Analysis : Type := mkAnalysis {
  technicalIndicators : list Analytics.StockData;
  optionPricing : OptionPricingData;
  volatilitySurface : list Surface.SurfacePoint;
  backtest : list Analytics.Backtest.BacktestRecord;
  portfolioMetrics : option Metrics.PortfolioMetrics
}.

(** The page state that [handleStockChange] sets. *)
Record PageState : Type := mkState {
  selectedStock : string;
  stockData : list Analytics.StockData;
  analysisResults : Analysis
}.

Section Handler.
Variable rnd : nat -> R.
Variable isoDate : Z -> string.

(** [handleStockChange].  [calculateTechnicalIndicators(newData)] copies the
    array but not its points: it rewrites the points of [newData] in place,
    so that the series stored by [setStockData(newData)] and the series read
    by the backtest and the metrics are the series it returns.  The state is
    [None] where the generated series is (a symbol whose base price is not
    a number). *)
Definition handleStockChange (symbol : string) (k : nat)
  : option (PageState * nat) :=
  match Analytics.generateMockStockData rnd isoDate symbol 252 k with
  | None => None
  | Some (newData, k1) =>
      let '(annotated, k2) :=
        Analytics.calculateTechnicalIndicators rnd newData k1 in
      let newData := annotated in
      let '(surface, k3) := Surface.generateVolatilitySurface rnd k2 in
      Some (mkState symbol newData
              (mkAnalysis annotated generateOptionPricingData surface
                 (Analytics.Backtest.backtestStrategy newData)
                 (Metrics.calculatePortfolioMetrics newData)),
            k3)
  end.

End Handler.

End Page.

(* ================================================================= *)
(** ** [backtestStrategy] over binary64 numbers *)

(** The backtest once more, with every number an IEEE double and every
    operation rounded as the source rounds it.  It is the model in which
    the backtest is evaluated on the inputs where rounding decides. *)
Module Binary64.
Import Stdlib.Floats.Floats.
Local Open Scope float_scope.

Record StockData : Type := mkStockData {
  date : string;
  open : float;
  high : float;
  low : float;
  close : float;
  volume : float;
  ma20 : option float;
  ma50 : option float;
  rsi : option float;
  macd : option float;
  macdSignal : option float;
  upperBB : option float;
  lowerBB : option float;
  portfolio : option float;
  benchmark : option float;
  prediction : option float
}.

(** A point with its base fields and the two moving averages. *)
Definition point (date : string) (open high low close volume : float)
  (ma20 ma50 : option float) : StockData :=
  mkStockData date open high low close volume ma20 ma50
    None None None None None None None None.

Record BacktestRecord : Type := mkRecord {
  recordDate : string;
  value : float;
  return_ : float
}.

(** Truthiness of an optional number: present, not zero and not NaN. *)
Definition truthy (o : option float) : bool :=
  match o with
  | Some x => negb (x =? 0) && (x =? x)
  | None => false
  end.

(** The value of a field that the guard has found truthy. *)
Definition num (o : option float) : float :=
  match o with Some x => x | None => nan end.

Definition gtb (a b : float) : bool := b <? a.
Definition geb (a b : float) : bool := b <=? a.


(** [Math.floor]: a double of magnitude 2^52 or more, an infinity and NaN
    are their own floor; below 2^52, adding and subtracting 2^52 rounds to
    the nearest integer, which is the floor or one above it. *)
Definition floor (x : float) : float :=
  if abs x <? 0x1p+52 then
    let nearest := (abs x + 0x1p+52) - 0x1p+52 in
    let below := if abs x <? nearest then nearest - 1 else nearest in
    if x <? 0
    then (if below =? abs x then - below else - below - 1)
    else below
  else x.

Definition pointAt (i : nat) (data : list StockData) : StockData :=
  nth i data (point "" 0 0 0 0 0 None None).

(** One iteration of the loop: capital, shares and the records pushed. *)
Definition backtestStep (data : list StockData)
  (st : float * float * list BacktestRecord) (i : nat)
  : float * float * list BacktestRecord :=
  let '(capital, shares, results) := st in
  let current := pointAt i data in
  let prev := pointAt (i - 1) data in
  let '(capital, shares) :=
    if truthy (ma20 current) && truthy (ma50 current)
       && truthy (ma20 prev) && truthy (ma50 prev)
    then
      if gtb (num (ma20 current)) (num (ma50 current))
         && (num (ma20 prev) <=? num (ma50 prev)) && gtb capital 0
      then
        let shares := floor (capital / close current) in
        (capital - shares * close current, shares)
      else if (num (ma20 current) <? num (ma50 current))
              && geb (num (ma20 prev)) (num (ma50 prev)) && gtb shares 0
      then (capital + shares * close current, 0)
      else (capital, shares)
    else (capital, shares) in
  let totalValue := capital + shares * close current in
  (capital, shares,
   results ++ [mkRecord (date current) totalValue
                        ((totalValue - 10000) / 10000 * 100)]).

Definition backtestStrategy (data : list StockData) : list BacktestRecord :=
  let '(_, _, results) :=
    fold_left (backtestStep data) (seq 50 (length data - 50)) (10000, 0, []) in
  results.

(** A series of [50 + length after] points: 49 points and a 50th with
    [ma20 < ma50], all at the close [c], then the 51st at the close [c]
    with [ma20 > ma50] (the buy signal), then the closes [after]. *)
Definition crossingUp (c : float) (after : list float) : list StockData :=
  repeat (point "2024-01-02" c c c c 1000 None None) 49
  ++ [point "2024-01-02" c c c c 1000 (Some 1) (Some 2);
      point "2024-01-03" c c c c 1000 (Some 2) (Some 1)]
  ++ map (fun x => point "2024-01-04" x x x x 1000 None None) after.



End Binary64.
(** The call price as the specification words it (section 4.3), kept apart
    from the embedding of the code above and compared with it below. *)
Module PricerReference.
Import JsNum.

Definition Phi (x : num) : num :=
  (0.5 * (1 + sign x * sqrt (1 - exp (- ((2:R) * (x * x) / pi)))))%js.

Definition callReference (S K days rate vol : R) : num :=
  let T := (days / 365)%js in
  let r := (rate / 100)%js in
  let sigma := (vol / 100)%js in
  let d1 := ((log (S / K) + (r + sigma * sigma / (2:R)) * T)
             / (sigma * sqrt T))%js in
  let d2 := (d1 - sigma * sqrt T)%js in
  let base := (S * Phi d1 - K * exp (- (r * T)) * Phi d2)%js in
  let adjusted :=
    if gt S K
    then (base + sigma * S * 0.1 * (1 + abs (S - K) / K))%js
    else max base (max 0.1 T * sigma * S * 0.05)%js in
  max adjusted 0.01.

End PricerReference.


(** Real-valued counterparts of the pricer's intermediate values, for the
    inputs on which they are finite. *)
Module PricerReals.
Import JsNum.

Definition sgnR (x : R) : R :=
  match Rsign x with Gt => 1 | Lt => -1 | Eq => 0 end.

Definition PhiR (x : R) : R :=
  0.5 * (1 + sgnR x * R_sqrt.sqrt (1 - Rtrigo_def.exp (- (2) * x * x / PI))).

(** Numerator and denominator of [d1]. *)
Definition d1_numer (S K days rate vol : R) : R :=
  ln (S / K) + (rate / 100 + 0.5 * (vol / 100) * (vol / 100)) * (days / 365).

Definition d1_denom (days vol : R) : R := vol / 100 * R_sqrt.sqrt (days / 365).

(** The discount factor [exp(-r*T)]. *)
Definition discountR (days rate : R) : R :=
  Rtrigo_def.exp (- (rate / 100 * (days / 365))).

End PricerReals.

(** Inputs at which the code is evaluated below.  [firstHalf] is a random
    source for which the first draw is 0.5 and every other draw is 0.48: the
    shock of every day but the first cancels the daily return. *)
Module Sources.

Definition firstHalf (k : nat) : R := if (k =? 0)%nat then 0.5 else 0.48.

(** A series whose latest close is 100. *)
Definition closeAt100 : list Analytics.StockData :=
  [Analytics.rawPoint "2024-01-02" 99 101 98 100 1000000].

(** A series of 52 points at the close 10, then 12: the 50th point has
    [ma20 < ma50] and the 51st [ma20 > ma50], the buy signal. *)
Definition crossingUp : list Analytics.StockData :=
  repeat (Analytics.rawPoint "2024-01-02" 10 11 9 10 1000) 49
  ++ [Analytics.set_ma50 2
        (Analytics.set_ma20 1 (Analytics.rawPoint "2024-01-02" 10 11 9 10 1000));
      Analytics.set_ma50 1
        (Analytics.set_ma20 2 (Analytics.rawPoint "2024-01-03" 10 11 9 10 1000));
      Analytics.rawPoint "2024-01-04" 12 13 11 12 1000].


End Sources.

(** Predicates in which the properties of the indicator engine and of the
    backtest are stated. *)
Module Predicates.
Import Analytics.

(** The six base fields of a point. *)
Definition base (p : StockData) : string * R * R * R * R * R :=
  (date p, open p, high p, low p, close p, volume p).

(** An input series in which no point carries a windowed indicator below
    the minimum index of that indicator: every series of base points, as
    the generator and the row adapter build them, and every series that
    the engine has annotated before. *)
Definition fresh (data : list StockData) : Prop :=
  forall i d, nth_error data i = Some d ->
    ((i < 19)%nat -> ma20 d = None /\ upperBB d = None /\ lowerBB d = None) /\
    ((i < 49)%nat -> ma50 d = None) /\
    ((i < 14)%nat -> rsi d = None).

(** What the pass at index [i] makes of the point [d]. *)
Definition annotated (i : nat) (d p : StockData) : Prop :=
  base p = base d /\
  (if 19 <=? i then exists v, ma20 p = Some v else ma20 p = ma20 d) /\
  (if 49 <=? i then exists v, ma50 p = Some v else ma50 p = ma50 d) /\
  (if 14 <=? i then exists v, rsi p = Some v /\ 0 <= v <= 100
   else rsi p = rsi d) /\
  (if 19 <=? i
   then exists u l, upperBB p = Some u /\ lowerBB p = Some l /\ l <= u
   else upperBB p = upperBB d /\ lowerBB p = lowerBB d).

(** What every record of the backtest trace satisfies: it is the value of a
    holding of non-negative cash and a non-negative number of shares at the
    close of a day of the series. *)
Definition sound (data : list StockData) (r : Backtest.BacktestRecord) : Prop :=
  (exists p capital shares,
      In p data /\ 0 <= capital /\ 0 <= shares /\
      Backtest.date r = date p /\
      Backtest.value r = capital + shares * close p) /\
  0 <= Backtest.value r /\
  Backtest.return_ r = (Backtest.value r - 10000) / 10000 * 100.





End Predicates.

(** The values of the windowed indicators, read on the input series. *)
Module IndicatorValues.
Import Analytics.

(** The closes of a series. *)
Definition closes (l : list StockData) : list R := map close l.

(** The MACD of the point at index [j]: the two EMAs over the prefix
    [0 .. j]. *)
Definition macdAt (data : list StockData) (j : nat) : R :=
  calculateEMA (Js.slice 0 (j + 1) data) 12
  - calculateEMA (Js.slice 0 (j + 1) data) 26.

(** The 20-point window that ends at index [i]. *)
Definition window20 (data : list StockData) (i : nat) : list StockData :=
  Js.slice (i - 19) (i + 1) data.

(** The point [p] carries, for its index [i], the windowed indicators of
    the series [data]. *)
Definition valued (data : list StockData) (i : nat) (p : StockData) : Prop :=
  ((19 <= i)%nat -> ma20 p = Some (sumClose (window20 data i) / 20)) /\
  ((49 <= i)%nat ->
     ma50 p = Some (sumClose (Js.slice (i - 49) (i + 1) data) / 50)) /\
  ((14 <= i)%nat -> rsi p = Some (rsiValue i data)) /\
  ((26 <= i)%nat -> macd p = Some (macdAt data i)) /\
  ((34 <= i)%nat ->
     macdSignal p = Some (Js.sum (map (macdAt data) (seq (i - 8) 9)) / 9)) /\
  ((19 <= i)%nat ->
     upperBB p = Some (bbSma (window20 data i) + 2 * bbStdDev (window20 data i)) /\
     lowerBB p = Some (bbSma (window20 data i) - 2 * bbStdDev (window20 data i))).

(** The three overlays of the point [p], drawn from the source [rnd] around
    the close [c]; [old] is the prediction the point carried before. *)
Definition overlaid (rnd : nat -> R) (c : R) (old : option R) (p : StockData)
  : Prop :=
  (exists j, portfolio p = Some (c * (1 + rnd j * 0.1))) /\
  (exists j, benchmark p = Some (c * (1 + rnd j * 0.05))) /\
  (prediction p = old \/
   exists j, prediction p = Some (c * (1 + (rnd j - 0.5) * 0.1))).

(** The windowed indicators of two points agree. *)
Definition sameIndicators (p q : StockData) : Prop :=
  ma20 p = ma20 q /\ ma50 p = ma50 q /\ rsi p = rsi q /\
  macd p = macd q /\ macdSignal p = macdSignal q /\
  upperBB p = upperBB q /\ lowerBB p = lowerBB q.

End IndicatorValues.

(** What the generator guarantees of a point. *)
Module GeneratorSpec.
Import Analytics.

(** A well-formed candle: positive prices with [low <= open, close <= high]
    and a whole volume in [1000000, 11000000). *)
Definition candle (p : StockData) : Prop :=
  0 < low p /\
  low p <= open p <= high p /\
  low p <= close p <= high p /\
  1000000 <= volume p < 11000000 /\
  exists z : Z, volume p = IZR z.

End GeneratorSpec.

(** The running peak of the closes. *)
Module MetricsSpec.
Import Analytics.

(** [peak] is the highest close of the days [0 .. b]. *)
Definition isPeak (data : list StockData) (b : nat) (peak : R) : Prop :=
  (exists a, (a <= b)%nat /\ closeAt a data = peak) /\
  forall a, (a <= b)%nat -> closeAt a data <= peak.

End MetricsSpec.

(** Rows for the row adapter. *)
Module AdapterSpec.

(** The row that carries the six base fields of a point under the
    lower-case keys. *)
Definition rowOfPoint (p : Analytics.StockData) : RowAdapter.Row :=
  RowAdapter.mkRow
    (Some (Analytics.date p)) None
    (Some (Analytics.open p)) None
    (Some (Analytics.high p)) None
    (Some (Analytics.low p)) None
    (Some (Analytics.close p)) None
    None None
    (Some (Analytics.volume p)) None.

End AdapterSpec.

(* ================================================================= *)
(** * Properties *)

(** Decisions on reals that the context settles. *)
Ltac rdecide :=
  repeat match goal with
  | |- context [Rlt_dec ?a ?b] => destruct (Rlt_dec a b); try lra
  | |- context [Rle_dec ?a ?b] => destruct (Rle_dec a b); try lra
  | |- context [Req_dec_T ?a ?b] => destruct (Req_dec_T a b); try lra
  end.

(** Sums of arrays. *)
Module SumProps.
Import Js.

Lemma fold_plus_shift (l : list R) (a : R) :
  fold_left Rplus l a = a + fold_left Rplus l 0.
Proof.
  revert a. induction l as [| x l IH]; intros a; simpl; [lra |].
  rewrite (IH (a + x)), (IH (0 + x)). lra.
Qed.

Lemma sum_nil : sum [] = 0.
Proof. reflexivity. Qed.

Lemma sum_cons (x : R) (l : list R) : sum (x :: l) = x + sum l.
Proof. unfold sum. simpl. rewrite fold_plus_shift. lra. Qed.

Lemma sum_nonneg (l : list R) : Forall (fun x => 0 <= x) l -> 0 <= sum l.
Proof.
  induction 1 as [| x l Hx _ IH]; [rewrite sum_nil; lra |].
  rewrite sum_cons. lra.
Qed.

Lemma sum_pos (l : list R) :
  l <> [] -> Forall (fun x => 0 < x) l -> 0 < sum l.
Proof.
  intros Hne Hall. destruct Hall as [| x l Hx Hl]; [contradiction |].
  rewrite sum_cons.
  assert (0 <= sum l); [| lra].
  apply sum_nonneg. eapply Forall_impl; [| exact Hl]. intros; simpl in *; lra.
Qed.

Lemma sum_map_scale (c : R) (l : list R) :
  sum (map (fun x => x * c) l) = sum l * c.
Proof.
  induction l as [| x l IH]; simpl.
  - rewrite sum_nil. lra.
  - rewrite !sum_cons, IH. lra.
Qed.

End SumProps.

Module PricerProps.
Import JsNum OptionPricer PricerReals.

Lemma div_fin (a b : R) : b <> 0 -> (Fin a / Fin b)%js = Fin (a / b).
Proof. intros Hb. cbn. destruct (Req_dec_T b 0); [contradiction | reflexivity]. Qed.

Lemma T_fin d : T d = Fin (d / 365).
Proof. unfold T. apply div_fin. lra. Qed.

Lemma r_fin x : r x = Fin (x / 100).
Proof. unfold r. apply div_fin. lra. Qed.

Lemma sigma_fin x : sigma x = Fin (x / 100).
Proof. unfold sigma. apply div_fin. lra. Qed.

Lemma exp_le_1 (y : R) : y <= 0 -> Rtrigo_def.exp y <= 1.
Proof.
  intros [Hy | ->].
  - left. rewrite <- exp_0. now apply exp_increasing.
  - rewrite exp_0. lra.
Qed.

Lemma sqrt_fin (x : R) : 0 <= x -> sqrt (Fin x) = Fin (R_sqrt.sqrt x).
Proof. intros Hx. cbn. rdecide. reflexivity. Qed.

Lemma exp_arg_le_1 (x : R) : Rtrigo_def.exp (- (2) * x * x / PI) <= 1.
Proof.
  pose proof PI_RGT_0 as HPI.
  apply exp_le_1.
  assert (0 <= x * x) by nra.
  assert (0 <= (x * x) / PI)
    by (apply Rmult_le_pos; [lra | left; now apply Rinv_0_lt_compat]).
  replace (- (2) * x * x / PI) with (- (2 * (x * x / PI))) by (field; lra).
  lra.
Qed.

Lemma normCDF_fin (x : R) : normCDF (Fin x) = Fin (PhiR x).
Proof.
  unfold normCDF, PhiR, sgnR, pi, sign, sgn.
  pose proof PI_RGT_0 as HPI. pose proof (exp_arg_le_1 x) as Hle.
  destruct (Rsign x); cbn; rdecide; cbn; rdecide; f_equal; lra.
Qed.

Lemma normCDF_pinf : normCDF PInf = Fin 1.
Proof.
  unfold normCDF, pi. pose proof PI_RGT_0 as HPI.
  cbn. unfold Rsign. rdecide. cbn. rdecide. cbn. rdecide. cbn.
  f_equal. replace (1 + - 0) with 1 by lra. rewrite sqrt_1. lra.
Qed.

Lemma normCDF_ninf : normCDF NInf = Fin 0.
Proof.
  unfold normCDF, pi. pose proof PI_RGT_0 as HPI.
  cbn. unfold Rsign. rdecide. cbn. rdecide. cbn. rdecide. cbn.
  f_equal. replace (1 + - 0) with 1 by lra. rewrite sqrt_1. lra.
Qed.

(** [normCDF] yields a finite value on everything but NaN. *)
Lemma normCDF_defined (a : num) : a <> NaN -> exists y, normCDF a = Fin y.
Proof.
  destruct a as [x | | |]; intros Ha.
  - eexists. apply normCDF_fin.
  - eexists. apply normCDF_pinf.
  - eexists. apply normCDF_ninf.
  - contradiction.
Qed.

Section Finite.
Variables S K days rate vol : R.
Hypothesis HS : 0 < S.
Hypothesis HK : 0 < K.
Hypothesis Hd : 0 < days.

Local Abbreviation numer := (d1_numer S K days rate vol).
Local Abbreviation denom := (d1_denom days vol).

Lemma sqrtT_pos : 0 < R_sqrt.sqrt (days / 365).
Proof. apply sqrt_lt_R0. lra. Qed.

Lemma sigma_sqrtT : (sigma vol * sqrt (T days))%js = Fin denom.
Proof.
  rewrite sigma_fin, T_fin, sqrt_fin by lra. reflexivity.
Qed.

Lemma d1_cases :
  d1 S K days rate vol =
  if Req_dec_T denom 0 then inf_of (Rsign numer) else Fin (numer / denom).
Proof.
  unfold d1. rewrite sigma_sqrtT, sigma_fin, r_fin, T_fin.
  rewrite div_fin by lra.
  assert (0 < S / K) by (now apply Rdiv_lt_0_compat).
  assert (Hlog : log (Fin (S / K)) = Fin (ln (S / K))).
  { cbn. rdecide. reflexivity. }
  rewrite Hlog. reflexivity.
Qed.

Lemma denom_zero : denom = 0 <-> vol = 0.
Proof.
  unfold d1_denom. pose proof sqrtT_pos. split; intros Hz.
  - apply Rmult_integral in Hz. lra.
  - subst. lra.
Qed.

Hypothesis Hdef : vol <> 0 \/ ln (S / K) + rate / 100 * (days / 365) <> 0.

Lemma d1_defined : d1 S K days rate vol <> NaN.
Proof.
  rewrite d1_cases. destruct (Req_dec_T denom 0) as [Hz | Hz]; [| discriminate].
  apply denom_zero in Hz. destruct Hdef as [Hv | Hn]; [contradiction |].
  assert (Hnum : numer <> 0).
  { unfold d1_numer. subst vol. 
    replace (rate / 100 + 0.5 * (0 / 100) * (0 / 100)) with (rate / 100) by lra.
    exact Hn. }
  unfold Rsign. rdecide; discriminate.
Qed.

Lemma d2_defined : d2 S K days rate vol <> NaN.
Proof.
  unfold d2. rewrite sigma_sqrtT. pose proof d1_defined as H1.
  destruct (d1 S K days rate vol); cbn; congruence.
Qed.

End Finite.

(** C6: strike equal to spot with zero rate and zero volatility is a valid
    input (S > 0, K > 0, days > 0); [d1] is 0/0 there, [Math.max] passes
    the NaN on, and both prices of the quote are NaN: neither [call >= 0.01]
    nor [put >= 0.01] holds, the floors of "Ensure minimum realistic value"
    notwithstanding. *)
Theorem quote_floor_fails_at_zero_volatility :
  0 < 100 /\ 0 < 30 /\
  priceAt 100 100 30 0 0 = mkQuote NaN NaN /\
  ge (call (priceAt 100 100 30 0 0)) 0.01 = false /\
  ge (put (priceAt 100 100 30 0 0)) 0.01 = false.
Proof.
  assert (H1 : d1 100 100 30 0 0 = NaN).
  { rewrite d1_cases by lra.
    destruct (Req_dec_T (d1_denom 30 0) 0) as [_ | Hn].
    - unfold d1_numer. replace (100 / 100) with 1 by lra. rewrite ln_1.
      unfold Rsign. rdecide. reflexivity.
    - exfalso. apply Hn. apply denom_zero; lra. }
  assert (Hq : priceAt 100 100 30 0 0 = mkQuote NaN NaN).
  { unfold priceAt, putPrice, callPrice, callAdjusted, callBase, d2.
    rewrite H1. cbn. rdecide; reflexivity. }
  rewrite Hq. cbn. repeat split; lra.
Qed.

(** *** The code against the reference definition *)

Lemma exp_arg_eq (x : num) :
  (- (2:R) * x * x / pi)%js = (- ((2:R) * (x * x) / pi))%js.
Proof.
  unfold pi. pose proof PI_RGT_0 as HPI.
  destruct x as [x | | |].
  - cbn. destruct (Req_dec_T PI 0); [lra |]. cbn. f_equal. field. lra.
  - cbn. unfold Rsign. rdecide; cbn; rdecide; reflexivity.
  - cbn. unfold Rsign. rdecide; cbn; rdecide; reflexivity.
  - reflexivity.
Qed.

Lemma normCDF_is_Phi (x : num) : normCDF x = PricerReference.Phi x.
Proof. unfold normCDF, PricerReference.Phi. now rewrite exp_arg_eq. Qed.

Lemma drift_term (rate vol days : R) :
  ((Fin rate / Fin 100 + Fin 0.5 * (Fin vol / Fin 100) * (Fin vol / Fin 100))
   * (Fin days / Fin 365))%js =
  ((Fin rate / Fin 100 + (Fin vol / Fin 100) * (Fin vol / Fin 100) / Fin 2)
   * (Fin days / Fin 365))%js.
Proof.
  rewrite !div_fin by lra. cbn. rdecide. cbn. apply f_equal. lra.
Qed.

Lemma discount_term (rate days : R) :
  exp (- (Fin rate / Fin 100) * (Fin days / Fin 365))%js =
  exp (- (Fin rate / Fin 100 * (Fin days / Fin 365)))%js.
Proof. rewrite !div_fin by lra. cbn. do 2 f_equal. lra. Qed.

Lemma max_floor_idem (a : num) : max (max a 0.01) 0.01 = max a 0.01.
Proof.
  destruct a as [x | | |]; cbn; try reflexivity;
    f_equal; apply Rmax_left; first [apply Rmax_r | lra].
Qed.

(** C7: the call price of the quote is the call price of the reference
    definition (T = days/365, r = rate/100, sigma = vol/100, d1, d2, the
    closed-form Phi, the base price, the in/out of the money adjustment and
    the 0.01 floor), on every input. *)
Theorem call_price_matches_reference (S K days rate vol : R) :
  call (priceAt S K days rate vol) =
  PricerReference.callReference S K days rate vol.
Proof.
  unfold priceAt, call, callPrice. rewrite max_floor_idem.
  unfold PricerReference.callReference, callAdjusted, callBase, d2, d1,
    volatilityPremium, moneynessFactor, timeDecayFactor, sigma, r, T.
  cbv zeta.
  rewrite drift_term, discount_term, !normCDF_is_Phi.
  reflexivity.
Qed.

End PricerProps.

(* ================================================================= *)
(** ** The Monte Carlo simulator *)

Module MonteCarloProps.
Import MonteCarlo.

(** *** The sort *)

Lemma insertAsc_perm (x : R) (l : list R) : Permutation (insertAsc x l) (x :: l).
Proof.
  induction l as [| y l IH]; simpl; [reflexivity |].
  destruct (Rle_dec x y); [reflexivity |].
  rewrite IH. apply perm_swap.
Qed.

Lemma sortAsc_perm (l : list R) : Permutation (sortAsc l) l.
Proof.
  induction l as [| x l IH]; simpl; [constructor |].
  rewrite insertAsc_perm. now constructor.
Qed.

Lemma sortAsc_length (l : list R) : length (sortAsc l) = length l.
Proof. apply Permutation_length, sortAsc_perm. Qed.

Lemma insertAsc_sorted (x : R) (l : list R) :
  Sorted Rle l -> Sorted Rle (insertAsc x l).
Proof.
  induction l as [| y l IH]; simpl; intros Hs.
  - repeat constructor.
  - destruct (Rle_dec x y) as [Hxy | Hxy].
    + constructor; [assumption | now constructor].
    + inversion Hs as [| ? ? Hl Hhd]; subst.
      constructor; [now apply IH |].
      destruct l as [| z l]; simpl.
      * constructor. lra.
      * destruct (Rle_dec x z); constructor; [lra |].
        now inversion Hhd.
Qed.

Lemma sortAsc_sorted (l : list R) : StronglySorted Rle (sortAsc l).
Proof.
  apply Sorted_StronglySorted.
  - intros a b c; apply Rle_trans.
  - induction l as [| x l IH]; simpl; [constructor |].
    now apply insertAsc_sorted.
Qed.

(** In a sorted array a smaller index holds a smaller element. *)
Lemma sorted_nth_le (l : list R) :
  StronglySorted Rle l ->
  forall i j a b, (i <= j)%nat ->
    nth_error l i = Some a -> nth_error l j = Some b -> a <= b.
Proof.
  induction 1 as [| x l Hs IH Hall]; intros i j a b Hij Ha Hb.
  - destruct i; discriminate.
  - destruct i as [| i], j as [| j]; simpl in *.
    + injection Ha as <-. injection Hb as <-. lra.
    + injection Ha as <-. apply nth_error_In in Hb.
      rewrite Forall_forall in Hall. now apply Hall.
    + lia.
    + apply (IH i j); trivial. lia.
Qed.

(** *** The trials *)

Lemma runTrials_length rnd n h start k :
  length (fst (runTrials rnd n h start k)) = n.
Proof.
  revert k. induction n as [| n IH]; intros k; simpl; [reflexivity |].
  destruct (simulatePath rnd h start k) as [price k1].
  specialize (IH k1). destruct (runTrials rnd n h start k1) as [rest k2].
  simpl in *. now rewrite IH.
Qed.

(** The two quantile indices of the run of 10000 trials. *)
Lemma index95 : floorIndex (INR 10000 * 0.05) = 500%nat.
Proof.
  unfold floorIndex. rewrite INR_IZR_INZ.
  change (Z.of_nat 10000) with 10000%Z.
  rewrite (Zfloor_eq 500); [reflexivity | lra].
Qed.

Lemma index99 : floorIndex (INR 10000 * 0.01) = 100%nat.
Proof.
  unfold floorIndex. rewrite INR_IZR_INZ.
  change (Z.of_nat 10000) with 10000%Z.
  rewrite (Zfloor_eq 100); [reflexivity | lra].
Qed.

Lemma run_unfold rnd stockData k :
  fst (runMonteCarloSimulation rnd stockData k) =
  let results := sortAsc (trialsOf rnd stockData k) in
  mkResults (Js.sum results / INR 10000)
            (nth_error results 500) (nth_error results 100)
            (nth_error results 500) (nth_error results 100)
            (Js.slice 0 100 results).
Proof.
  unfold runMonteCarloSimulation, simulate, trialsOf.
  destruct (runTrials rnd 10000 252 (startPrice stockData) k) as [trials k'].
  rewrite index95, index99. reflexivity.
Qed.

(** C8: in every run, [var95] is the element at index
    floor(0.05 * 10000) = 500 and [var99] the element at index
    floor(0.01 * 10000) = 100 of the terminal prices sorted in ascending
    order, both are present, and [var99 <= var95]. *)
Theorem quantiles_of_sorted_terminals rnd stockData k :
  let res := fst (runMonteCarloSimulation rnd stockData k) in
  exists sorted v95 v99,
    Permutation sorted (trialsOf rnd stockData k) /\
    StronglySorted Rle sorted /\
    var95 res = nth_error sorted (floorIndex (INR 10000 * 0.05)) /\
    var99 res = nth_error sorted (floorIndex (INR 10000 * 0.01)) /\
    var95 res = Some v95 /\ var99 res = Some v99 /\
    v99 <= v95.
Proof.
  intros res. subst res. rewrite run_unfold. cbv zeta.
  cbn [var95 var99 simulations].
  set (sorted := sortAsc (trialsOf rnd stockData k)).
  assert (Hlen : length sorted = 10000%nat).
  { unfold sorted. rewrite sortAsc_length. apply runTrials_length. }
  destruct (nth_error sorted 500) as [v95 |] eqn:H95.
  2: { apply nth_error_None in H95. rewrite Hlen in H95.
       apply Nat.leb_le in H95. discriminate. }
  destruct (nth_error sorted 100) as [v99 |] eqn:H99.
  2: { apply nth_error_None in H99. rewrite Hlen in H99.
       apply Nat.leb_le in H99. discriminate. }
  exists sorted, v95, v99.
  rewrite index95, index99.
  split; [apply sortAsc_perm |]. split; [apply sortAsc_sorted |].
  split; [now symmetry |]. split; [now symmetry |].
  split; [reflexivity |]. split; [reflexivity |].
  apply (sorted_nth_le sorted (sortAsc_sorted _) 100 500); trivial.
  apply Nat.leb_le. reflexivity.
Qed.

(** The sample of C1, as the code computes it: the array is sorted in place before the sample
    is sliced, so the [simulations] sample is the first 100 elements of the
    terminal prices in ascending order (the 100 smallest ones, none above
    [var99]); its length is min(100, 10000) = 100. *)
Theorem sample_is_sorted_prefix rnd stockData k :
  let res := fst (runMonteCarloSimulation rnd stockData k) in
  exists sorted,
    Permutation sorted (trialsOf rnd stockData k) /\
    StronglySorted Rle sorted /\
    simulations res = firstn 100 sorted /\
    length (simulations res) = Nat.min 100 10000 /\
    forall x v99, In x (simulations res) -> var99 res = Some v99 -> x <= v99.
Proof.
  intros res. subst res. rewrite run_unfold. cbv zeta.
  cbn [var95 var99 simulations].
  set (sorted := sortAsc (trialsOf rnd stockData k)).
  assert (Hlen : length sorted = 10000%nat).
  { unfold sorted. rewrite sortAsc_length. apply runTrials_length. }
  assert (Hsl : Js.slice 0 100 sorted = firstn 100 sorted) by reflexivity.
  exists sorted. rewrite Hsl.
  split; [apply sortAsc_perm |]. split; [apply sortAsc_sorted |].
  split; [reflexivity |]. split.
  - rewrite length_firstn, Hlen. reflexivity.
  - intros x v99 Hin H99.
    apply In_nth_error in Hin. destruct Hin as [i Hi].
    assert (Hi100 : (i < 100)%nat).
    { assert (Hlt : (i < length (firstn 100 sorted))%nat)
        by (apply nth_error_Some; congruence).
      rewrite length_firstn in Hlt. lia. }
    rewrite nth_error_firstn in Hi.
    assert (Hlt : (i <? 100)%nat = true) by now apply Nat.ltb_lt.
    rewrite Hlt in Hi.
    apply (sorted_nth_le sorted (sortAsc_sorted _) i 100 x v99); trivial. lia.
Qed.

(** *** A run whose sample is not the prefix of the trials *)

Lemma simulatePath_flat rnd d p k :
  (forall j, (k <= j < k + d)%nat -> rnd j = 0.48) ->
  simulatePath rnd d p k = (p, (k + d)%nat).
Proof.
  revert p k. induction d as [| d IH]; intros p k Hflat; simpl.
  - f_equal. lia.
  - rewrite IH by (intros j Hj; apply Hflat; lia).
    f_equal; [| lia].
    unfold randomShock, dailyReturn, dailyVolatility.
    rewrite Hflat by lia. lra.
Qed.

Lemma runTrials_flat rnd n h start k :
  (forall j, (k <= j)%nat -> rnd j = 0.48) ->
  fst (runTrials rnd n h start k) = repeat start n.
Proof.
  revert k. induction n as [| n IH]; intros k Hflat; simpl; [reflexivity |].
  rewrite simulatePath_flat by (intros j Hj; apply Hflat; lia).
  specialize (IH (k + h)%nat).
  destruct (runTrials rnd n h start (k + h)) as [rest k2]. simpl in *.
  rewrite IH; [reflexivity |]. intros j Hj. apply Hflat. lia.
Qed.

Lemma simulatePath_succ rnd d p k :
  simulatePath rnd (S d) p k =
  simulatePath rnd d (p * (1 + dailyReturn + randomShock rnd k)) (S k).
Proof. reflexivity. Qed.

Lemma runTrials_succ rnd n h start k :
  fst (runTrials rnd (S n) h start k) =
  fst (simulatePath rnd h start k)
  :: fst (runTrials rnd n h start (snd (simulatePath rnd h start k))).
Proof.
  simpl. destruct (simulatePath rnd h start k) as [price k1]. simpl.
  destruct (runTrials rnd n h start k1) as [rest k2]. reflexivity.
Qed.

Lemma sortAsc_repeat (y : R) (n : nat) : sortAsc (repeat y n) = repeat y n.
Proof.
  induction n as [| n IH]; simpl; [reflexivity |].
  rewrite IH. destruct n; simpl; [reflexivity |].
  destruct (Rle_dec y y); [reflexivity | lra].
Qed.

Lemma insertAsc_above (x y : R) (n : nat) :
  y < x -> insertAsc x (repeat y n) = repeat y n ++ [x].
Proof.
  intros Hyx. induction n as [| n IH]; simpl; [reflexivity |].
  destruct (Rle_dec x y); [lra |]. now rewrite IH.
Qed.

Lemma firstHalf_range (k : nat) : 0 <= Sources.firstHalf k < 1.
Proof. unfold Sources.firstHalf. destruct (k =? 0)%nat; lra. Qed.

Lemma firstHalf_trials :
  trialsOf Sources.firstHalf Sources.closeAt100 0 = (100 * 1.0008) :: repeat 100 9999.
Proof.
  unfold trialsOf. change 10000%nat with (S 9999).
  rewrite runTrials_succ.
  assert (Hstart : startPrice Sources.closeAt100 = 100).
  { unfold startPrice, Js.orElse. cbn. destruct (Req_dec_T 100 0); lra. }
  rewrite Hstart.
  assert (Hfirst : simulatePath Sources.firstHalf 252 100 0
                   = (100 * 1.0008, 252%nat)).
  { rewrite simulatePath_succ, simulatePath_flat.
    - f_equal. unfold randomShock, dailyReturn, dailyVolatility.
      cbn. lra.
    - intros j Hj. unfold Sources.firstHalf.
      destruct (Nat.eqb_spec j 0); [lia | reflexivity]. }
  rewrite Hfirst. cbn [fst snd]. apply f_equal.
  apply runTrials_flat. intros j Hj. unfold Sources.firstHalf.
  destruct (Nat.eqb_spec j 0); [lia | reflexivity].
Qed.

(** C1, at the failing input: from a latest close of 100 and with a source
    whose first draw is 0.5 and every other draw 0.48, the first trial ends
    at 100.08 and every other trial at 100.  The sample starts with 100,
    while the first trial result is 100.08: the sample is not the first 100
    trial results in trial order. *)
Lemma sample_not_trial_prefix :
  (forall k, 0 <= Sources.firstHalf k < 1) /\
  nth_error (trialsOf Sources.firstHalf Sources.closeAt100 0) 0 = Some (100 * 1.0008) /\
  nth_error (simulations (fst (runMonteCarloSimulation Sources.firstHalf Sources.closeAt100 0))) 0
    = Some 100 /\
  simulations (fst (runMonteCarloSimulation Sources.firstHalf Sources.closeAt100 0))
    <> firstn 100 (trialsOf Sources.firstHalf Sources.closeAt100 0).
Proof.
  assert (Hs : nth_error
     (simulations (fst (runMonteCarloSimulation Sources.firstHalf Sources.closeAt100 0))) 0
     = Some 100).
  { rewrite run_unfold. cbv zeta. cbn [simulations].
    rewrite firstHalf_trials. cbn [sortAsc]. rewrite sortAsc_repeat.
    rewrite insertAsc_above by lra.
    change 9999%nat with (S 9998). reflexivity. }
  split; [apply firstHalf_range |].
  split; [rewrite firstHalf_trials; reflexivity |].
  split; [exact Hs |].
  intros Heq. rewrite Heq, firstHalf_trials in Hs.
  cbn in Hs. injection Hs as Hs. lra.
Qed.

End MonteCarloProps.

(* ================================================================= *)
(** ** The Sharpe allocator *)

Module PortfolioProps.
Import Portfolio SumProps.

Lemma mapi_from_length {A B} (f : A -> nat -> B) (l : list A) (i : nat) :
  length (mapi_from i f l) = length l.
Proof. revert i. induction l; intros i; simpl; [| rewrite IHl]; reflexivity. Qed.

Lemma mapi_from_nth {A B} (f : A -> nat -> B) (l : list A) (i j : nat) :
  nth_error (mapi_from i f l) j =
  option_map (fun x => f x (i + j)%nat) (nth_error l j).
Proof.
  revert i j. induction l as [| x l IH]; intros i [| j]; simpl; trivial.
  - now rewrite Nat.add_0_r.
  - rewrite IH. now rewrite Nat.add_succ_r.
Qed.

Lemma mapi_from_Forall {A B} (P : B -> Prop) (f : A -> nat -> B) (l : list A) i :
  (forall j x, nth_error l j = Some x -> P (f x (i + j)%nat)) ->
  Forall P (mapi_from i f l).
Proof.
  revert i. induction l as [| x l IH]; intros i Hf; simpl; constructor.
  - specialize (Hf 0%nat x eq_refl). now rewrite Nat.add_0_r in Hf.
  - apply IH. intros j y Hj. specialize (Hf (S j) y Hj).
    now rewrite Nat.add_succ_r in Hf.
Qed.

Lemma at_nth (l : list R) (i : nat) (x : R) :
  nth_error l i = Some x -> at_ l i = x.
Proof. intros H. unfold at_. now apply nth_error_nth. Qed.

Section Allocation.
Variables returns volatilities : list R.
Hypothesis Hnonempty : returns <> [].
Hypothesis Hparallel : length returns = length volatilities.
Hypothesis Hreturns : Forall (fun x => 0 < x) returns.
Hypothesis Hvols : Forall (fun x => 0 < x) volatilities.

Lemma vol_pos (i : nat) : (i < length returns)%nat -> 0 < at_ volatilities i.
Proof.
  intros Hi. rewrite Hparallel in Hi.
  rewrite Forall_forall in Hvols. apply Hvols.
  unfold at_. now apply nth_In.
Qed.

Lemma sharpe_pos : Forall (fun x => 0 < x) (sharpeRatios returns volatilities).
Proof.
  apply mapi_from_Forall. intros j x Hj. simpl.
  apply Rdiv_lt_0_compat.
  - rewrite Forall_forall in Hreturns. apply Hreturns.
    eapply nth_error_In; eauto.
  - apply vol_pos. apply nth_error_Some. congruence.
Qed.

Lemma totalSharpe_pos : 0 < totalSharpe returns volatilities.
Proof.
  apply sum_pos; [| apply sharpe_pos].
  intros Hnil. apply (f_equal (@length R)) in Hnil.
  unfold sharpeRatios, mapi in Hnil. rewrite mapi_from_length in Hnil.
  destruct returns; [contradiction | discriminate].
Qed.

Lemma weights_sum : Js.sum (optimalWeights returns volatilities) = 100.
Proof.
  pose proof totalSharpe_pos as Ht. unfold optimalWeights.
  rewrite (map_ext _ (fun x => x * (100 / totalSharpe returns volatilities)))
    by (intros; field; lra).
  rewrite sum_map_scale. fold (totalSharpe returns volatilities). field. lra.
Qed.

Lemma weight_at (i : nat) :
  (i < length returns)%nat ->
  at_ (optimalWeights returns volatilities) i =
  100 / totalSharpe returns volatilities
  * (at_ returns i / at_ volatilities i).
Proof.
  intros Hi. pose proof totalSharpe_pos as Ht.
  destruct (nth_error returns i) as [x |] eqn:Hx;
    [| apply nth_error_None in Hx; lia].
  apply at_nth. unfold optimalWeights, sharpeRatios, mapi.
  rewrite nth_error_map, mapi_from_nth, Hx. simpl.
  rewrite (at_nth _ _ _ Hx). f_equal. field.
  pose proof (vol_pos i Hi). lra.
Qed.

End Allocation.

(** C3, as the code has it: on parallel, non-empty arrays of strictly
    positive returns and volatilities, the weight of asset [i] is
    [c * return_i / volatility_i] for one positive factor [c], and the
    weights are percentages: they sum to 100, so that the fractions
    [weight_i / 100] sum to 1. *)
Theorem sharpe_weights_are_percentages
  (assets : list string) (returns volatilities : list R) :
  returns <> [] ->
  length returns = length volatilities ->
  Forall (fun x => 0 < x) returns ->
  Forall (fun x => 0 < x) volatilities ->
  let w := weights (allocate assets returns volatilities) in
  length w = length returns /\
  (exists c, 0 < c /\
     forall i, (i < length returns)%nat ->
       at_ w i = c * (at_ returns i / at_ volatilities i)) /\
  Js.sum w = 100 /\
  Js.sum (map (fun x => x * / 100) w) = 1.
Proof.
  intros Hne Hlen Hr Hv w. subst w. cbn [weights allocate].
  pose proof (totalSharpe_pos _ _ Hne Hlen Hr Hv) as Ht.
  split; [| split; [| split]].
  - unfold optimalWeights, sharpeRatios, mapi.
    now rewrite length_map, mapi_from_length.
  - exists (100 / totalSharpe returns volatilities). split.
    + apply Rdiv_lt_0_compat; lra.
    + intros i Hi. now apply weight_at.
  - now apply weights_sum.
  - rewrite sum_map_scale, weights_sum by assumption. lra.
Qed.

Lemma sharpe_weights_are_percentages_witness :
  let w := weights optimizePortfolio in
  length w = 5%nat /\
  (exists c, 0 < c /\
     forall i, (i < 5)%nat ->
       at_ w i = c * (at_ [0.12; 0.08; 0.06; 0.10; 0.07] i
                      / at_ [0.20; 0.15; 0.12; 0.25; 0.14] i)) /\
  Js.sum w = 100 /\
  Js.sum (map (fun x => x * / 100) w) = 1.
Proof.
  apply (sharpe_weights_are_percentages
           ["Tech"; "Healthcare"; "Finance"; "Energy"; "Consumer"]%string
           [0.12; 0.08; 0.06; 0.10; 0.07] [0.20; 0.15; 0.12; 0.25; 0.14]).
  - discriminate.
  - reflexivity.
  - repeat constructor; lra.
  - repeat constructor; lra.
Defined.

(** C3, counterexample: the weights of the hard-coded five-asset universe
    sum to 100, which is not within 1e-9 of 1. *)
Lemma sharpe_weights_sum_counterexample :
  Js.sum (weights optimizePortfolio) = 100 /\
  ~ Rabs (Js.sum (weights optimizePortfolio) - 1) <= 1 / 10 ^ 9.
Proof.
  assert (H : Js.sum (weights optimizePortfolio) = 100).
  { apply weights_sum.
    - discriminate.
    - reflexivity.
    - repeat constructor; lra.
    - repeat constructor; lra. }
  split; [exact H |]. rewrite H.
  replace (100 - 1) with 99 by lra. rewrite Rabs_right by lra.
  intros Hle. 
  assert (1 / 10 ^ 9 < 1); [| lra].
  apply Rmult_lt_reg_r with (10 ^ 9).
  - apply pow_lt. lra.
  - unfold Rdiv. rewrite Rmult_assoc, Rinv_l by (apply pow_nonzero; lra).
    simpl. lra.
Qed.

End PortfolioProps.

(* ================================================================= *)
(** ** The series generator *)

Module GeneratorProps.
Import Analytics.

Lemma randomChange_affine (u : R) : randomChange u = -0.01 + 0.02 * u.
Proof. unfold randomChange, volatility. lra. Qed.

Lemma randomChange_range (u : R) :
  0 <= u < 1 -> -0.01 <= randomChange u < 0.01.
Proof. rewrite randomChange_affine. lra. Qed.

Lemma generatePrefix_succ rnd isoDate symbol days k n :
  generatePrefix rnd isoDate symbol days k (S n) =
  generateStep rnd isoDate days (generatePrefix rnd isoDate symbol days k n) n.
Proof.
  unfold generatePrefix. rewrite seq_S, fold_left_app. reflexivity.
Qed.

Lemma generatePrefix_draws rnd isoDate symbol days k n :
  snd (fst (generatePrefix rnd isoDate symbol days k n)) = (k + 6 * n)%nat.
Proof.
  induction n as [| n IH]; [simpl; lia |].
  rewrite generatePrefix_succ.
  destruct (generatePrefix rnd isoDate symbol days k n) as [[p kn] data].
  simpl in *. lia.
Qed.

(** C2, as the code has it: at every day step the price is advanced by
    [price * (1 + drift + noise)] with [drift = 0.0002]; the noise is
    [(u - 0.5) * volatility] for the draw [u] of the step, with
    [volatility = 0.02]: an affine image of the draw, which ranges over
    [-0.01, 0.01) (half the volatility on each side) and reaches each of
    its values. *)
Theorem generator_step_noise rnd isoDate symbol days k n :
  (forall j, 0 <= rnd j < 1) ->
  let price := fst (fst (generatePrefix rnd isoDate symbol days k n)) in
  let price' := fst (fst (generatePrefix rnd isoDate symbol days k (S n))) in
  let u := rnd (k + 6 * n)%nat in
  let noise := randomChange u in
  price' = price * (1 + 0.0002 + noise) /\
  noise = (u - 0.5) * 0.02 /\
  -0.01 <= noise < 0.01 /\
  (forall x, -0.01 <= x < 0.01 ->
     exists u', 0 <= u' < 1 /\ randomChange u' = x).
Proof.
  intros Hrnd price price' u noise. subst price price' u noise.
  rewrite generatePrefix_succ.
  pose proof (generatePrefix_draws rnd isoDate symbol days k n) as Hk.
  destruct (generatePrefix rnd isoDate symbol days k n) as [[p kn] data].
  simpl in Hk. subst kn. cbn [generateStep fst].
  split; [reflexivity |]. split; [reflexivity |].
  split; [apply randomChange_range, Hrnd |].
  intros x Hx. exists ((x + 0.01) / 0.02).
  rewrite randomChange_affine. split; lra.
Qed.

Lemma generator_step_noise_witness :
  let rnd := fun _ : nat => 0.5 in
  let isoDate := fun _ : Z => ""%string in
  let price := fst (fst (generatePrefix rnd isoDate "TSLA" 252 0 0)) in
  let price' := fst (fst (generatePrefix rnd isoDate "TSLA" 252 0 1)) in
  let u := rnd (0 + 6 * 0)%nat in
  let noise := randomChange u in
  price' = price * (1 + 0.0002 + noise) /\
  noise = (u - 0.5) * 0.02 /\
  -0.01 <= noise < 0.01 /\
  (forall x, -0.01 <= x < 0.01 ->
     exists u', 0 <= u' < 1 /\ randomChange u' = x).
Proof.
  apply (generator_step_noise (fun _ => 0.5) (fun _ => ""%string) "TSLA" 252 0 0).
  intros j. lra.
Defined.

(** C2, counterexample: 0.015 lies in [-0.02, 0.02] and no draw yields it
    as noise; the lowest draw moves a price of 100 to 99.02, where a noise
    of -0.02 would have moved it to 98.02. *)
Lemma noise_range_counterexample :
  -0.02 <= 0.015 <= 0.02 /\
  (forall u, 0 <= u < 1 -> randomChange u <> 0.015) /\
  nextPrice 100 0 = 99.02 /\
  nextPrice 100 0 <> 100 * (1 + 0.0002 + -0.02).
Proof.
  split; [lra |]. split.
  - intros u Hu. pose proof (randomChange_range u Hu). lra.
  - unfold nextPrice, drift. rewrite randomChange_affine. split; lra.
Qed.

End GeneratorProps.

(* ================================================================= *)
(** ** The row adapter *)

Module AdapterProps.
Import RowAdapter.

(** A row whose only key is [price]. *)
Lemma orNum_some (x b : R) : x <> 0 -> orNum (Some x) b = x.
Proof.
  intros Hx. unfold orNum, Js.orDefault, Js.orElse.
  destruct (Req_dec_T x 0); [contradiction | reflexivity].
Qed.

Lemma orNum_none (b : R) : orNum None b = b.
Proof. reflexivity. Qed.

(** C4, at the failing input: a row that carries only [price = 250] is
    converted to a point with [close = 250] but [open = high = low = 100]:
    the fallback of open, high and low reads the keys [close] and [Close]
    only, not the [price] aliases through which the close was resolved. *)
Theorem price_only_row rnd today k :
  let item :=
    mkRow None None None None None None None None None None
          (Some 250) None None None in
  convertRow rnd today item k =
  (Analytics.rawPoint today 100 100 100 250 (Js.floor (rnd k * 1000000)), S k).
Proof.
  cbv zeta. unfold convertRow. cbn [date Date open Open high High low Low
    close Close price Price volume Volume orStr Js.truthy negb andb].
  rewrite !orNum_none, orNum_some by lra. reflexivity.
Qed.

(** Where the close is resolved through [close] or [Close], a missing open,
    high and low do default to it. *)
Lemma close_keyed_row rnd today k (c : R) :
  c <> 0 ->
  let item :=
    mkRow None None None None None None None None (Some c) None
          None None None None in
  fst (convertRow rnd today item k) =
  Analytics.rawPoint today c c c c (Js.floor (rnd k * 1000000)).
Proof.
  intros Hc. cbv zeta. unfold convertRow. cbn [date Date open Open high High
    low Low close Close price Price volume Volume orStr Js.truthy negb andb fst].
  rewrite !orNum_none, !orNum_some by assumption. reflexivity.
Qed.

(** A row with none of the close and price keys gets [close = 100]. *)
Lemma unresolved_close rnd today k :
  Analytics.close (fst (convertRow rnd today emptyRow k)) = 100.
Proof. reflexivity. Qed.

End AdapterProps.

(* ================================================================= *)
(** ** The backtest *)

Module BacktestProps.
Import Analytics Analytics.Backtest Predicates.

Lemma floor_bounds (x : R) : 0 <= x -> 0 <= Js.floor x <= x.
Proof.
  intros Hx. unfold Js.floor. split.
  - apply IZR_le. apply Zfloor_lub. simpl. exact Hx.
  - apply Zfloor_bound.
Qed.

Section Invariant.
Variable data : list StockData.
Hypothesis Hclose : Forall (fun p => 0 < close p) data.

Lemma pointAt_in (i : nat) : (i < length data)%nat -> In (pointAt i data) data.
Proof. intros Hi. unfold pointAt. now apply nth_In. Qed.

Lemma close_pos (p : StockData) : In p data -> 0 < close p.
Proof. rewrite Forall_forall in Hclose. apply Hclose. Qed.

(** One step keeps cash and shares non-negative and pushes one sound
    record. *)
Lemma backtestStep_inv capital shares results i :
  (i < length data)%nat ->
  0 <= capital -> 0 <= shares -> Forall (sound data) results ->
  let '(capital', shares', results') :=
    backtestStep data (capital, shares, results) i in
  0 <= capital' /\ 0 <= shares' /\ Forall (sound data) results' /\
  length results' = S (length results).
Proof.
  intros Hi Hc Hs Hres. unfold backtestStep.
  pose proof (pointAt_in i Hi) as Hin.
  pose proof (close_pos _ Hin) as Hpos.
  set (current := pointAt i data) in *.
  set (prev := pointAt (i - 1) data).
  assert (Hpush : forall c s, 0 <= c -> 0 <= s ->
    0 <= c /\ 0 <= s /\
    Forall (sound data)
      (results ++ [mkRecord (Analytics.date current) (c + s * close current)
                     ((c + s * close current - 10000) / 10000 * 100)]) /\
    length (results ++ [mkRecord (Analytics.date current) (c + s * close current)
                     ((c + s * close current - 10000) / 10000 * 100)])
    = S (length results)).
  { intros c s Hc' Hs'. split; [exact Hc' |]. split; [exact Hs' |]. split.
    - apply Forall_app. split; [exact Hres |]. constructor; [| constructor].
      assert (0 <= s * close current) by (apply Rmult_le_pos; lra).
      split; [| split]; cbn.
      + exists current, c, s. repeat split; trivial.
      + lra.
      + reflexivity.
    - rewrite length_app. simpl. lia. }
  destruct (Js.truthy (ma20 current) && Js.truthy (ma50 current)
            && Js.truthy (ma20 prev) && Js.truthy (ma50 prev));
    [| now apply Hpush].
  destruct (Js.Rgtb (num (ma20 current)) (num (ma50 current))
            && Js.Rleb (num (ma20 prev)) (num (ma50 prev))
            && Js.Rgtb capital 0).
  - assert (Hq : 0 <= capital / close current)
      by (apply Rmult_le_pos; [lra | left; now apply Rinv_0_lt_compat]).
    destruct (floor_bounds _ Hq) as [Hf0 Hf1].
    apply Hpush; [| exact Hf0].
    assert (Js.floor (capital / close current) * close current
            <= capital / close current * close current)
      by (apply Rmult_le_compat_r; lra).
    replace (capital / close current * close current) with capital in H
      by (field; lra).
    lra.
  - destruct (Js.Rltb (num (ma20 current)) (num (ma50 current))
              && Js.Rgeb (num (ma20 prev)) (num (ma50 prev))
              && Js.Rgtb shares 0).
    + apply Hpush; [| lra].
      assert (0 <= shares * close current) by (apply Rmult_le_pos; lra). lra.
    + now apply Hpush.
Qed.

Lemma backtest_fold_inv (indices : list nat) capital shares results :
  Forall (fun i => (i < length data)%nat) indices ->
  0 <= capital -> 0 <= shares -> Forall (sound data) results ->
  let '(_, _, results') :=
    fold_left (backtestStep data) indices (capital, shares, results) in
  Forall (sound data) results' /\
  length results' = (length results + length indices)%nat.
Proof.
  revert capital shares results.
  induction indices as [| i indices IH]; intros capital shares results Hidx Hc Hs Hres.
  - simpl. split; [exact Hres | lia].
  - inversion Hidx as [| ? ? Hi Hrest]; subst. cbn [fold_left].
    pose proof (backtestStep_inv capital shares results i Hi Hc Hs Hres) as Hstep.
    destruct (backtestStep data (capital, shares, results) i)
      as [[capital' shares'] results'].
    destruct Hstep as (Hc' & Hs' & Hres' & Hlen').
    specialize (IH capital' shares' results' Hrest Hc' Hs' Hres').
    destruct (fold_left (backtestStep data) indices (capital', shares', results'))
      as [[c2 s2] r2].
    destruct IH as [IH1 IH2]. split; [exact IH1 |]. rewrite IH2, Hlen'. simpl. lia.
Qed.

End Invariant.






End BacktestProps.

(* ================================================================= *)
(** ** The technical indicator engine *)

Module IndicatorProps.
Import Analytics Predicates SumProps.

(** *** Array updates *)

Lemma update_length {A} (i : nat) (f : A -> A) (l : list A) :
  length (Js.update i f l) = length l.
Proof.
  revert i. induction l as [| x l IH]; intros [| i]; simpl; trivial.
  now rewrite IH.
Qed.

Lemma update_same {A} (i : nat) (f : A -> A) (l : list A) :
  nth_error (Js.update i f l) i = option_map f (nth_error l i).
Proof.
  revert i. induction l as [| x l IH]; intros [| i]; simpl; trivial.
Qed.

Lemma update_other {A} (i j : nat) (f : A -> A) (l : list A) :
  i <> j -> nth_error (Js.update i f l) j = nth_error l j.
Proof.
  revert i j. induction l as [| x l IH]; intros [| i] [| j] Hij; simpl; trivial.
  - contradiction.
  - apply IH. lia.
Qed.

Lemma update_update {A} (i : nat) (f g : A -> A) (l : list A) :
  Js.update i f (Js.update i g l) = Js.update i (fun p => f (g p)) l.
Proof.
  revert i. induction l as [| x l IH]; intros [| i]; simpl; trivial.
  now rewrite IH.
Qed.

(** *** The values of the RSI and of the Bollinger bands *)

Lemma gains_nonneg (changes : list R) : Forall (fun x => 0 <= x) (gains changes).
Proof.
  unfold gains. apply Forall_forall. intros x Hx.
  apply filter_In in Hx. destruct Hx as [_ Hx].
  unfold Js.Rgtb in Hx. destruct (Rlt_dec 0 x); [lra | discriminate].
Qed.

Lemma losses_nonneg (changes : list R) : Forall (fun x => 0 <= x) (losses changes).
Proof.
  unfold losses. apply Forall_forall. intros x Hx.
  apply in_map_iff in Hx. destruct Hx as (y & <- & _). apply Rabs_pos.
Qed.

Lemma orElse_pos (a : R) : 0 <= a -> 0 < Js.orElse a 1.
Proof.
  intros Ha. unfold Js.orElse. destruct (Req_dec_T a 0); lra.
Qed.

Lemma rsiValue_range (i : nat) (result : list StockData) :
  0 <= rsiValue i result <= 100.
Proof.
  unfold rsiValue. cbv zeta.
  set (changes := rsiChanges i result).
  pose proof (sum_nonneg _ (gains_nonneg changes)) as Hg.
  pose proof (sum_nonneg _ (losses_nonneg changes)) as Hl.
  assert (Hden : 0 < Js.orElse (Js.sum (losses changes) / 14) 1)
    by (apply orElse_pos; lra).
  set (rs := Js.sum (gains changes) / 14
             / Js.orElse (Js.sum (losses changes) / 14) 1).
  assert (Hrs : 0 <= rs).
  { unfold rs. apply Rmult_le_pos; [lra |]. left. now apply Rinv_0_lt_compat. }
  assert (Hinv : 0 < / (1 + rs) <= 1).
  { split; [apply Rinv_0_lt_compat; lra |].
    apply Rle_trans with (/ 1); [apply Rinv_le_contravar; lra |].
    rewrite Rinv_1. lra. }
  unfold Rdiv. lra.
Qed.

Lemma bands_ordered (window : list StockData) :
  bbSma window - 2 * bbStdDev window <= bbSma window + 2 * bbStdDev window.
Proof.
  assert (0 <= bbStdDev window) by (unfold bbStdDev; apply sqrt_pos). lra.
Qed.

(** *** One iteration *)

Ltac name_value v :=
  tryif is_var v then fail else (let x := fresh "v" in set (x := v); clearbody x).

(** Names for the values written by an iteration. *)
Ltac name_values :=
  repeat match goal with
  | |- context [set_ma20 ?v] => name_value v
  | |- context [set_ma50 ?v] => name_value v
  | |- context [set_rsi (rsiValue ?i ?l)] =>
      let x := fresh "v" in
      let H := fresh "Hrsi" in
      pose proof (rsiValue_range i l) as H;
      set (x := rsiValue i l) in *; clearbody x
  | |- context [set_macd ?v] => name_value v
  | |- context [set_macdSignal ?v] => name_value v
  | |- context [bbSma ?w] => name_value w
  | |- context [set_portfolio ?v] => name_value v
  | |- context [set_benchmark ?v] => name_value v
  | |- context [set_prediction ?v] => name_value v
  end.

Ltac chain :=
  repeat rewrite update_update;
  match goal with
  | |- exists g k', (Js.update ?i ?f ?l, ?kk) = _ /\ _ =>
      exists f, kk; split; [reflexivity |]
  end.

Ltac prune :=
  try (exfalso;
       repeat match goal with
       | H : (_ <=? _) = true |- _ => apply Nat.leb_le in H
       | H : (_ <=? _) = false |- _ => apply Nat.leb_gt in H
       end; lia).

(** An iteration rewrites the point at its index only, and what it makes
    of that point is described by [annotated]. *)
Lemma annotateStep_shape rnd (result : list StockData) (k i : nat) :
  exists g k',
    annotateStep rnd (result, k) i = (Js.update i g result, k') /\
    forall p, annotated i p (g p).
Proof.
  unfold annotateStep.
  destruct (19 <=? i) eqn:H19; destruct (49 <=? i) eqn:H49;
    destruct (14 <=? i) eqn:H14; destruct (26 <=? i) eqn:H26;
    destruct (34 <=? i) eqn:H34; prune;
    match goal with
    | |- context [Js.Rgtb ?a ?b] => destruct (Js.Rgtb a b)
    end;
    cbv zeta; name_values; chain;
    intros p; unfold annotated; rewrite ?H19, ?H49, ?H14;
    (split; [reflexivity |]);
    repeat split; cbn;
    try reflexivity;
    try (eexists; reflexivity);
    try (eexists; split; [reflexivity | assumption]);
    try (eexists; eexists; split; [reflexivity |];
         split; [reflexivity | apply bands_ordered]).
Qed.

(** *** The whole pass *)

(** The state of the loop after its first [m] iterations. *)
Lemma annotate_prefix rnd (data : list StockData) (k m : nat) :
  (m <= length data)%nat ->
  let st := fold_left (annotateStep rnd) (seq 0 m) (data, k) in
  length (fst st) = length data /\
  forall i d, nth_error data i = Some d ->
    exists p, nth_error (fst st) i = Some p /\
              if i <? m then annotated i d p else p = d.
Proof.
  induction m as [| m IH]; intros Hm; cbv zeta.
  - simpl. split; [reflexivity |]. intros i d Hd. now exists d.
  - rewrite seq_S, fold_left_app. cbn [fold_left Nat.add].
    destruct IH as [Hlen Hpts]; [lia |].
    destruct (fold_left (annotateStep rnd) (seq 0 m) (data, k)) as [result km].
    cbn [fst] in *.
    destruct (annotateStep_shape rnd result km m) as (g & k' & -> & Hg).
    cbn [fst]. split; [now rewrite update_length |].
    intros i d Hd. destruct (Hpts i d Hd) as (p & Hp & Hrel).
    destruct (Nat.eq_dec m i) as [-> | Hneq].
    + exists (g p). rewrite update_same, Hp. split; [reflexivity |].
      rewrite Nat.ltb_irrefl in Hrel. subst p.
      assert (Hlt : (i <? S i) = true) by (apply Nat.ltb_lt; lia).
      rewrite Hlt. apply Hg.
    + exists p. rewrite update_other by exact Hneq. split; [exact Hp |].
      destruct (i <? m) eqn:Him.
      * apply Nat.ltb_lt in Him.
        assert (Hlt : (i <? S m) = true) by (apply Nat.ltb_lt; lia).
        now rewrite Hlt.
      * apply Nat.ltb_ge in Him.
        assert (Hlt : (i <? S m) = false) by (apply Nat.ltb_ge; lia).
        now rewrite Hlt.
Qed.

(** Every point of the output is what the pass at its index makes of the
    input point at that index. *)
Lemma annotate_pointwise rnd (data : list StockData) (k : nat) :
  let out := fst (calculateTechnicalIndicators rnd data k) in
  length out = length data /\
  forall i d, nth_error data i = Some d ->
    exists p, nth_error out i = Some p /\ annotated i d p.
Proof.
  cbv zeta. unfold calculateTechnicalIndicators.
  destruct (annotate_prefix rnd data k (length data) (le_n _)) as [Hlen Hpts].
  split; [exact Hlen |]. intros i d Hd.
  destruct (Hpts i d Hd) as (p & Hp & Hrel). exists p. split; [exact Hp |].
  assert (Hlt : (i <? length data) = true).
  { apply Nat.ltb_lt. apply nth_error_Some. congruence. }
  now rewrite Hlt in Hrel.
Qed.

(** C10: the pass returns a series of the length of its input, in which the
    point at each index has the date, open, high, low, close and volume of
    the input point at that index; the record has no other field than these
    and the derived ones. *)
Theorem annotation_keeps_base_fields rnd (data : list StockData) (k : nat) :
  let out := fst (calculateTechnicalIndicators rnd data k) in
  length out = length data /\
  map base out = map base data /\
  forall i d, nth_error data i = Some d ->
    exists p, nth_error out i = Some p /\
      date p = date d /\ open p = open d /\ high p = high d /\
      low p = low d /\ close p = close d /\ volume p = volume d.
Proof.
  cbv zeta. destruct (annotate_pointwise rnd data k) as [Hlen Hpts].
  split; [exact Hlen |]. split.
  - apply nth_error_ext. intros i. rewrite !nth_error_map.
    destruct (nth_error data i) as [d |] eqn:Hd.
    + destruct (Hpts i d Hd) as (p & -> & Hb & _). simpl. now rewrite Hb.
    + apply nth_error_None in Hd. rewrite <- Hlen in Hd.
      apply nth_error_None in Hd. now rewrite Hd.
  - intros i d Hd. destruct (Hpts i d Hd) as (p & Hp & Hb & _).
    exists p. split; [exact Hp |]. unfold base in Hb.
    injection Hb as -> -> -> -> -> ->. repeat split.
Qed.





End IndicatorProps.

(* ================================================================= *)
(** ** The values written by the indicator engine *)

Module IndicatorValueProps.
Import Analytics Predicates IndicatorValues SumProps IndicatorProps.

(** *** What reads the closes only *)

Lemma closes_length (l : list StockData) : length (closes l) = length l.
Proof. apply length_map. Qed.

Lemma closes_update (i : nat) (f : StockData -> StockData) (l : list StockData) :
  (forall p, close (f p) = close p) -> closes (Js.update i f l) = closes l.
Proof.
  intros Hf. revert i. induction l as [| x l IH]; intros [| i]; simpl; trivial.
  - now rewrite Hf.
  - unfold closes in IH. now rewrite IH.
Qed.

Lemma closes_slice (a b : nat) (l : list StockData) :
  closes (Js.slice a b l) = Js.slice a b (closes l).
Proof. unfold closes, Js.slice. now rewrite skipn_map, firstn_map. Qed.

Lemma closeAt_closes (j : nat) (l : list StockData) :
  closeAt j l = nth j (closes l) 0.
Proof.
  unfold closeAt. revert j. induction l as [| x l IH]; intros [| j]; simpl; trivial.
Qed.

Section Ext.
Variables l l' : list StockData.
Hypothesis Hcl : closes l = closes l'.

Lemma closeAt_ext (j : nat) : closeAt j l = closeAt j l'.
Proof. now rewrite !closeAt_closes, Hcl. Qed.

Lemma sumClose_ext : sumClose l = sumClose l'.
Proof. unfold sumClose. fold (closes l) (closes l'). now rewrite Hcl. Qed.

Lemma rsiValue_ext (i : nat) : rsiValue i l = rsiValue i l'.
Proof.
  unfold rsiValue, rsiChanges.
  rewrite (map_ext (fun j => closeAt j l - closeAt (j - 1) l)
                   (fun j => closeAt j l' - closeAt (j - 1) l'));
    [reflexivity |].
  intros j. now rewrite !closeAt_ext.
Qed.

Lemma calculateEMA_ext (period : R) : calculateEMA l period = calculateEMA l' period.
Proof.
  unfold calculateEMA. cbv zeta. rewrite closeAt_ext.
  set (m := 2 / (period + 1)).
  assert (Hfold : forall (d : list StockData) a,
    fold_left (fun ema p => close p * m + ema * (1 - m)) d a =
    fold_left (fun ema c => c * m + ema * (1 - m)) (closes d) a).
  { induction d as [| x d IH]; intros a; simpl; [reflexivity | apply IH]. }
  rewrite !Hfold.
  assert (Htl : forall d : list StockData, closes (tl d) = tl (closes d))
    by (intros [| ? ?]; reflexivity).
  now rewrite !Htl, Hcl.
Qed.

Lemma bbSma_ext : bbSma l = bbSma l'.
Proof. unfold bbSma. now rewrite sumClose_ext. Qed.

Lemma bbStdDev_ext : bbStdDev l = bbStdDev l'.
Proof.
  unfold bbStdDev. cbv zeta. rewrite bbSma_ext.
  assert (Hmap : forall (d : list StockData) s,
    map (fun p => (close p - s) ^ 2) d = map (fun c => (c - s) ^ 2) (closes d)).
  { intros d s. unfold closes. now rewrite map_map. }
  now rewrite !Hmap, Hcl.
Qed.

End Ext.

Lemma slice_ext (a b : nat) (l l' : list StockData) :
  closes l = closes l' -> closes (Js.slice a b l) = closes (Js.slice a b l').
Proof. intros H. now rewrite !closes_slice, H. Qed.

(** *** The window of MACD values *)

Lemma slice_seq {A} (d : A) (l : list A) (a n : nat) :
  (a + n <= length l)%nat ->
  Js.slice a (a + n) l = map (fun j => nth j l d) (seq a n).
Proof.
  unfold Js.slice. replace (a + n - a)%nat with n by lia.
  revert l a. induction n as [| n IH]; intros l a Hlen.
  - now rewrite firstn_0.
  - simpl seq. simpl map. rewrite <- (IH l (S a)) by lia.
    revert l Hlen. induction a as [| a IHa]; intros l Hlen.
    + destruct l as [| x l]; simpl in *; [lia | reflexivity].
    + destruct l as [| x l]; simpl in Hlen; [lia |].
      simpl skipn. simpl nth. apply (IHa l). lia.
Qed.

Lemma macdOrZero_some (p : StockData) (m : R) :
  macd p = Some m -> macdOrZero p = m.
Proof.
  intros H. unfold macdOrZero, Js.orDefault, Js.orElse. rewrite H.
  destruct (Req_dec_T m 0); congruence.
Qed.

Lemma macd_window (data result : list StockData) (i : nat)
  (G : StockData -> StockData) :
  (34 <= i)%nat -> (i < length result)%nat ->
  (forall j, (i - 8 <= j < i)%nat ->
     exists q, nth_error result j = Some q /\ macd q = Some (macdAt data j)) ->
  (forall q, macd (G q) = Some (macdAt data i)) ->
  map macdOrZero (Js.slice (i - 8) (i + 1) (Js.update i G result)) =
  map (macdAt data) (seq (i - 8) 9).
Proof.
  intros Hi Hlen Hwin HG.
  replace (i + 1)%nat with (i - 8 + 9)%nat by lia.
  rewrite (slice_seq (rawPoint "" 0 0 0 0 0)) by (rewrite update_length; lia).
  rewrite map_map. apply map_ext_in. intros j Hj. apply in_seq in Hj.
  apply macdOrZero_some.
  destruct (Nat.eq_dec i j) as [<- | Hneq].
  - destruct (nth_error result i) as [q |] eqn:Hq;
      [| apply nth_error_None in Hq; lia].
    rewrite (nth_error_nth _ _ _ (eq_trans (update_same i G result)
                                     (f_equal (option_map G) Hq))).
    apply HG.
  - destruct (Hwin j) as (q & Hq & Hm); [lia |].
    rewrite <- (update_other i j G result Hneq) in Hq.
    now rewrite (nth_error_nth _ _ _ Hq).
Qed.

(** *** One iteration, with the values it writes *)

Ltac solve_closes H :=
  rewrite ?closes_update by (intros; reflexivity); first [exact H | reflexivity].

(** Moves every value that reads the closes of an intermediate array to
    the input series. *)
Ltac to_data data H :=
  repeat match goal with
  | |- context [sumClose (Js.slice ?a ?b ?l)] =>
      lazymatch l with data => fail | _ => idtac end;
      rewrite (sumClose_ext (Js.slice a b l) (Js.slice a b data))
        by (apply slice_ext; solve_closes H)
  | |- context [calculateEMA (Js.slice ?a ?b ?l) ?p] =>
      lazymatch l with data => fail | _ => idtac end;
      rewrite (calculateEMA_ext (Js.slice a b l) (Js.slice a b data))
        by (apply slice_ext; solve_closes H)
  | |- context [bbSma (Js.slice ?a ?b ?l)] =>
      lazymatch l with data => fail | _ => idtac end;
      rewrite (bbSma_ext (Js.slice a b l) (Js.slice a b data))
        by (apply slice_ext; solve_closes H)
  | |- context [bbStdDev (Js.slice ?a ?b ?l)] =>
      lazymatch l with data => fail | _ => idtac end;
      rewrite (bbStdDev_ext (Js.slice a b l) (Js.slice a b data))
        by (apply slice_ext; solve_closes H)
  | |- context [rsiValue ?i ?l] =>
      lazymatch l with data => fail | _ => idtac end;
      rewrite (rsiValue_ext l data) by solve_closes H
  | |- context [closeAt ?i ?l] =>
      lazymatch l with data => fail | _ => idtac end;
      rewrite (closeAt_ext l data) by solve_closes H
  end.

Ltac bools :=
  repeat match goal with
  | H : (_ <=? _) = true |- _ => apply Nat.leb_le in H
  | H : (_ <=? _) = false |- _ => apply Nat.leb_gt in H
  end.

Lemma annotateStep_values rnd (data result : list StockData) (k i : nat) :
  length result = length data ->
  closes result = closes data ->
  (i < length data)%nat ->
  ((34 <= i)%nat -> forall j, (i - 8 <= j < i)%nat ->
     exists q, nth_error result j = Some q /\ macd q = Some (macdAt data j)) ->
  exists g k',
    annotateStep rnd (result, k) i = (Js.update i g result, k') /\
    (forall p, valued data i (g p) /\
               overlaid rnd (closeAt i data) (prediction p) (g p) /\
               close (g p) = close p /\
               ((i < 26)%nat -> macd (g p) = macd p) /\
               ((i < 34)%nat -> macdSignal (g p) = macdSignal p)) /\
    (k + 3 <= k' <= k + 4)%nat.
Proof.
  intros Hlen Hcl Hi Hwin. unfold annotateStep.
  replace (i + 1 - 20)%nat with (i - 19)%nat by lia.
  destruct (19 <=? i) eqn:H19; destruct (49 <=? i) eqn:H49;
    destruct (14 <=? i) eqn:H14; destruct (26 <=? i) eqn:H26;
    destruct (34 <=? i) eqn:H34; prune;
    match goal with
    | |- context [Js.Rgtb ?a ?b] => destruct (Js.Rgtb a b)
    end;
    cbv zeta; repeat rewrite update_update; to_data data Hcl;
    bools;
    try (rewrite (macd_window data result i) by
           (first [assumption | lia | now apply Hwin | intros; reflexivity]));
    match goal with
    | |- exists g k', (Js.update ?i ?f ?l, ?kk) = _ /\ _ =>
        exists f, kk; split; [reflexivity |]
    end;
    (split; [| lia]);
    intros p; unfold valued, overlaid, window20; cbn;
    repeat split; intros; try lia; try reflexivity;
    try (eexists; reflexivity);
    try (right; eexists; reflexivity);
    try (left; reflexivity).
Qed.

(** *** The whole pass, with the values it writes *)

Lemma closeAt_nth (data : list StockData) (i : nat) (d : StockData) :
  nth_error data i = Some d -> closeAt i data = close d.
Proof. intros H. unfold closeAt. now rewrite H. Qed.

(** What the pass has made of the input point [d] at index [i]. *)
Lemma annotate_prefix_values rnd (data : list StockData) (k m : nat) :
  (m <= length data)%nat ->
  let st := fold_left (annotateStep rnd) (seq 0 m) (data, k) in
  length (fst st) = length data /\
  closes (fst st) = closes data /\
  (k + 3 * m <= snd st <= k + 4 * m)%nat /\
  forall i d, nth_error data i = Some d ->
    exists p, nth_error (fst st) i = Some p /\
      if i <? m
      then valued data i p /\
           overlaid rnd (close d) (prediction d) p /\
           ((i < 26)%nat -> macd p = macd d) /\
           ((i < 34)%nat -> macdSignal p = macdSignal d)
      else p = d.
Proof.
  induction m as [| m IH]; intros Hm; cbv zeta.
  - simpl. repeat split; try lia. intros i d Hd. now exists d.
  - rewrite seq_S, fold_left_app. cbn [fold_left Nat.add].
    destruct IH as (Hlen & Hcl & Hk & Hpts); [lia |].
    destruct (fold_left (annotateStep rnd) (seq 0 m) (data, k)) as [result km].
    cbn [fst snd] in *.
    destruct (annotateStep_values rnd data result km m Hlen Hcl) as
      (g & k' & -> & Hg & Hk'); [lia | |].
    { intros H34 j Hj.
      destruct (nth_error data j) as [d |] eqn:Hd;
        [| apply nth_error_None in Hd; lia].
      destruct (Hpts j d Hd) as (q & Hq & Hrel).
      assert (Hlt : (j <? m) = true) by (apply Nat.ltb_lt; lia).
      rewrite Hlt in Hrel. exists q. split; [exact Hq |].
      destruct Hrel as ((_ & _ & _ & Hmacd & _) & _). apply Hmacd. lia. }
    cbn [fst snd]. split; [now rewrite update_length |].
    split; [rewrite closes_update; [exact Hcl | intros p; apply Hg] |].
    split; [lia |].
    intros i d Hd. destruct (Hpts i d Hd) as (p & Hp & Hrel).
    destruct (Nat.eq_dec m i) as [-> | Hneq].
    + exists (g p). rewrite update_same, Hp. split; [reflexivity |].
      rewrite Nat.ltb_irrefl in Hrel. subst p.
      assert (Hlt : (i <? S i) = true) by (apply Nat.ltb_lt; lia).
      rewrite Hlt. destruct (Hg d) as (Hv & Ho & _ & Hm1 & Hm2).
      rewrite (closeAt_nth _ _ _ Hd) in Ho. auto.
    + exists p. rewrite update_other by exact Hneq. split; [exact Hp |].
      destruct (i <? m) eqn:Him.
      * apply Nat.ltb_lt in Him.
        assert (Hlt : (i <? S m) = true) by (apply Nat.ltb_lt; lia).
        now rewrite Hlt.
      * apply Nat.ltb_ge in Him.
        assert (Hlt : (i <? S m) = false) by (apply Nat.ltb_ge; lia).
        now rewrite Hlt.
Qed.

Lemma annotate_values rnd (data : list StockData) (k : nat) :
  let out := calculateTechnicalIndicators rnd data k in
  closes (fst out) = closes data /\
  (k + 3 * length data <= snd out <= k + 4 * length data)%nat /\
  forall i d, nth_error data i = Some d ->
    exists p, nth_error (fst out) i = Some p /\
      valued data i p /\
      overlaid rnd (close d) (prediction d) p /\
      ((i < 26)%nat -> macd p = macd d) /\
      ((i < 34)%nat -> macdSignal p = macdSignal d).
Proof.
  cbv zeta. unfold calculateTechnicalIndicators.
  destruct (annotate_prefix_values rnd data k (length data) (le_n _))
    as (_ & Hcl & Hk & Hpts).
  split; [exact Hcl |]. split; [exact Hk |]. intros i d Hd.
  destruct (Hpts i d Hd) as (p & Hp & Hrel). exists p. split; [exact Hp |].
  assert (Hlt : (i <? length data) = true).
  { apply Nat.ltb_lt. apply nth_error_Some. congruence. }
  now rewrite Hlt in Hrel.
Qed.

(** *** Moving averages *)

Lemma sum_bounds (lo hi : R) (l : list R) :
  Forall (fun x => lo <= x <= hi) l ->
  INR (length l) * lo <= Js.sum l <= INR (length l) * hi.
Proof.
  induction 1 as [| x l Hx _ IH].
  - rewrite sum_nil. simpl. lra.
  - rewrite sum_cons. cbn [length]. rewrite S_INR. lra.
Qed.

Lemma slice_length {A} (a b : nat) (l : list A) :
  (b <= length l)%nat -> length (Js.slice a b l) = (b - a)%nat.
Proof.
  intros Hb. unfold Js.slice. rewrite length_firstn, length_skipn. lia.
Qed.


(** The moving averages of the output are the means of the trailing windows
    of the closes of the input series: [ma20] at an index [i >= 19]
    averages the closes of the input points [i-19 .. i], [ma50] at an
    index [i >= 49] those of [i-49 .. i].  The points of the window are
    read as the input has them: no later point is read, and what the pass
    has written into the earlier points does not count. *)
Theorem moving_averages_are_trailing_means rnd (data : list StockData) (k i : nat) :
  (i < length data)%nat ->
  exists p,
    nth_error (fst (calculateTechnicalIndicators rnd data k)) i = Some p /\
    ((19 <= i)%nat ->
       ma20 p = Some (sumClose (Js.slice (i - 19) (i + 1) data) / 20)) /\
    ((49 <= i)%nat ->
       ma50 p = Some (sumClose (Js.slice (i - 49) (i + 1) data) / 50)).
Proof.
  intros Hi.
  destruct (nth_error data i) as [d |] eqn:Hd;
    [| apply nth_error_None in Hd; lia].
  destruct (annotate_values rnd data k) as (_ & _ & Hpts).
  destruct (Hpts i d Hd) as (p & Hp & (H20 & H50 & _) & _).
  exists p. split; [exact Hp |]. split; [exact H20 | exact H50].
Qed.

Lemma flat60_length :
  length (repeat (rawPoint "2024-01-02" 10 11 9 10 1000) 60) = 60%nat.
Proof. apply repeat_length. Qed.

Lemma moving_averages_are_trailing_means_witness :
  let rnd := fun _ : nat => 0.5 in
  let data := repeat (rawPoint "2024-01-02" 10 11 9 10 1000) 60 in
  exists p,
    nth_error (fst (calculateTechnicalIndicators rnd data 0)) 49 = Some p /\
    ((19 <= 49)%nat ->
       ma20 p = Some (sumClose (Js.slice (49 - 19) (49 + 1) data) / 20)) /\
    ((49 <= 49)%nat ->
       ma50 p = Some (sumClose (Js.slice (49 - 49) (49 + 1) data) / 50)).
Proof.
  apply (moving_averages_are_trailing_means (fun _ => 0.5)
           (repeat (rawPoint "2024-01-02" 10 11 9 10 1000) 60) 0 49).
  rewrite flat60_length. lia.
Defined.

(** *** RSI *)

Lemma gains_empty (changes : list R) :
  gains changes = [] <-> Forall (fun c => c <= 0) changes.
Proof.
  unfold gains. induction changes as [| c l IH]; simpl.
  - split; constructor.
  - unfold Js.Rgtb at 1. destruct (Rlt_dec 0 c) as [Hc | Hc].
    + split; [discriminate |]. intros H. inversion H; subst. lra.
    + rewrite IH. split; intros H.
      * constructor; [lra | exact H].
      * now inversion H.
Qed.

Lemma rising_changes (changes : list R) :
  Forall (fun c => 0 < c) changes ->
  gains changes = changes /\ losses changes = [].
Proof.
  unfold gains, losses. induction 1 as [| c l Hc _ [IHg IHl]]; [now split |].
  assert (Hb : Js.Rgtb c 0 = true)
    by (unfold Js.Rgtb; destruct (Rlt_dec 0 c); [reflexivity | lra]).
  cbn [filter]. rewrite Hb. cbn [negb]. split; [now rewrite IHg | exact IHl].
Qed.

(** The RSI of a window without a rise is 0. *)
Lemma rsiValue_no_rise (i : nat) (l : list StockData) :
  Forall (fun c => c <= 0) (rsiChanges i l) -> rsiValue i l = 0.
Proof.
  intros H. apply gains_empty in H. unfold rsiValue. cbv zeta.
  rewrite H, sum_nil. unfold Rdiv. rewrite !Rmult_0_l, Rplus_0_r, Rinv_1. lra.
Qed.

(** The RSI of a window in which every day rises: the average loss is 0,
    and [avgLoss || 1] divides the average gain by 1. *)
Lemma rsiValue_all_rise (i : nat) (l : list StockData) :
  Forall (fun c => 0 < c) (rsiChanges i l) ->
  rsiValue i l = 100 - 100 / (1 + Js.sum (rsiChanges i l) / 14).
Proof.
  intros H. destruct (rising_changes _ H) as [Hg Hl]. unfold rsiValue. cbv zeta.
  rewrite Hg, Hl, sum_nil. unfold Js.orElse.
  destruct (Req_dec_T (0 / 14) 0) as [_ | Hn]; [| exfalso; apply Hn; lra].
  unfold Rdiv at 2. now rewrite Rinv_1, Rmult_1_r.
Qed.

(** The RSI of the output at an index [i >= 14] is computed from the 14
    day-over-day changes of the closes of the input points [i-13 .. i].
    It is 0 when no day of the window closed above the day before; when
    every day of the window closed above the day before, the average loss
    is 0, the code divides by 1 in its place, and the RSI is
    [100 - 100 / (1 + avgGain)]. *)
Theorem rsi_of_trailing_changes rnd (data : list StockData) (k i : nat) :
  (14 <= i < length data)%nat ->
  exists p v,
    nth_error (fst (calculateTechnicalIndicators rnd data k)) i = Some p /\
    rsi p = Some v /\
    v = rsiValue i data /\
    ((forall j, (i - 13 <= j <= i)%nat ->
        closeAt j data <= closeAt (j - 1) data) ->
     v = 0) /\
    ((forall j, (i - 13 <= j <= i)%nat ->
        closeAt (j - 1) data < closeAt j data) ->
     v = 100 - 100 / (1 + Js.sum (rsiChanges i data) / 14)).
Proof.
  intros [H14 Hi].
  destruct (nth_error data i) as [d |] eqn:Hd;
    [| apply nth_error_None in Hd; lia].
  destruct (annotate_values rnd data k) as (_ & _ & Hpts).
  destruct (Hpts i d Hd) as (p & Hp & (_ & _ & Hrsi & _) & _).
  exists p, (rsiValue i data).
  split; [exact Hp |]. split; [now apply Hrsi |]. split; [reflexivity |].
  split; intros H.
  - apply rsiValue_no_rise. unfold rsiChanges.
    rewrite Forall_map, Forall_forall. intros j Hj. apply in_seq in Hj.
    assert (closeAt j data <= closeAt (j - 1) data) by (apply H; lia). lra.
  - apply rsiValue_all_rise. unfold rsiChanges.
    rewrite Forall_map, Forall_forall. intros j Hj. apply in_seq in Hj.
    assert (closeAt (j - 1) data < closeAt j data) by (apply H; lia). lra.
Qed.

Lemma rsi_of_trailing_changes_witness :
  let rnd := fun _ : nat => 0.5 in
  let data := repeat (rawPoint "2024-01-02" 10 11 9 10 1000) 60 in
  exists p v,
    nth_error (fst (calculateTechnicalIndicators rnd data 0)) 14 = Some p /\
    rsi p = Some v /\
    v = rsiValue 14 data /\
    ((forall j, (14 - 13 <= j <= 14)%nat ->
        closeAt j data <= closeAt (j - 1) data) ->
     v = 0) /\
    ((forall j, (14 - 13 <= j <= 14)%nat ->
        closeAt (j - 1) data < closeAt j data) ->
     v = 100 - 100 / (1 + Js.sum (rsiChanges 14 data) / 14)).
Proof.
  apply (rsi_of_trailing_changes (fun _ => 0.5)
           (repeat (rawPoint "2024-01-02" 10 11 9 10 1000) 60) 0 14).
  rewrite flat60_length. lia.
Defined.

(** *** EMA and MACD *)

Lemma macdAt_ext (l l' : list StockData) (j : nat) :
  closes l = closes l' -> macdAt l j = macdAt l' j.
Proof.
  intros H. unfold macdAt.
  now rewrite !(calculateEMA_ext _ _ (slice_ext 0 (j + 1) l l' H)).
Qed.

(** The MACD of the output at an index [i >= 26] is the difference of the
    12- and 26-period EMAs of the closes of the input points [0 .. i];
    from index 34 on, the signal is the mean of the nine MACD values of
    the indices [i-8 .. i], each of them computed by this pass (the first
    of them at index 26 or later), none taken over from the input. *)
Theorem macd_of_input_prefix rnd (data : list StockData) (k i : nat) :
  (26 <= i < length data)%nat ->
  exists p,
    nth_error (fst (calculateTechnicalIndicators rnd data k)) i = Some p /\
    macd p = Some (calculateEMA (Js.slice 0 (i + 1) data) 12
                   - calculateEMA (Js.slice 0 (i + 1) data) 26) /\
    ((34 <= i)%nat ->
       macdSignal p =
       Some (Js.sum (map (macdAt data) (seq (i - 8) 9)) / 9)).
Proof.
  intros [H26 Hi].
  destruct (nth_error data i) as [d |] eqn:Hd;
    [| apply nth_error_None in Hd; lia].
  destruct (annotate_values rnd data k) as (_ & _ & Hpts).
  destruct (Hpts i d Hd) as (p & Hp & (_ & _ & _ & Hmacd & Hsig & _) & _).
  exists p. split; [exact Hp |]. split; [now apply Hmacd | exact Hsig].
Qed.

Lemma macd_of_input_prefix_witness :
  let rnd := fun _ : nat => 0.5 in
  let data := repeat (rawPoint "2024-01-02" 10 11 9 10 1000) 60 in
  exists p,
    nth_error (fst (calculateTechnicalIndicators rnd data 0)) 40 = Some p /\
    macd p = Some (calculateEMA (Js.slice 0 (40 + 1) data) 12
                   - calculateEMA (Js.slice 0 (40 + 1) data) 26) /\
    ((34 <= 40)%nat ->
       macdSignal p =
       Some (Js.sum (map (macdAt data) (seq (40 - 8) 9)) / 9)).
Proof.
  apply (macd_of_input_prefix (fun _ => 0.5)
           (repeat (rawPoint "2024-01-02" 10 11 9 10 1000) 60) 0 40).
  rewrite flat60_length. lia.
Defined.

(** *** Bollinger bands *)



(** *** The overlays *)



(** *** Annotating an annotated series *)

Lemma reannotation_pointwise rnd (data : list StockData) (k k' : nat) :
  let out1 := fst (calculateTechnicalIndicators rnd data k) in
  let out2 := fst (calculateTechnicalIndicators rnd out1 k') in
  length out2 = length out1 /\
  forall i p1, nth_error out1 i = Some p1 ->
    exists p2, nth_error out2 i = Some p2 /\
      base p2 = base p1 /\ sameIndicators p2 p1.
Proof.
  cbv zeta.
  destruct (annotate_values rnd data k) as (Hcl1 & _ & Hv1).
  destruct (annotate_pointwise rnd data k) as [Hlen1 Ha1].
  set (out1 := fst (calculateTechnicalIndicators rnd data k)) in *.
  destruct (annotate_values rnd out1 k') as (_ & _ & Hv2).
  destruct (annotate_pointwise rnd out1 k') as [Hlen2 Ha2].
  split; [exact Hlen2 |].
  intros i p1 Hp1.
  destruct (nth_error data i) as [d |] eqn:Hd.
  2: { apply nth_error_None in Hd. rewrite <- Hlen1 in Hd.
       apply nth_error_None in Hd. congruence. }
  destruct (Hv1 i d Hd) as (q1 & Hq1 & V1 & _).
  assert (q1 = p1) by congruence. subst q1.
  destruct (Hv2 i p1 Hp1) as (p2 & Hp2 & V2 & _ & Hm26 & Hm34).
  destruct (Ha2 i p1 Hp1) as (q2 & Hq2 & Hb & A20 & A50 & Arsi & Abb).
  assert (q2 = p2) by congruence. subst q2.
  exists p2. split; [exact Hp2 |]. split; [exact Hb |].
  destruct V1 as (V1a & V1b & V1c & V1d & V1e & V1f).
  destruct V2 as (V2a & V2b & V2c & V2d & V2e & V2f).
  assert (Hw : forall a b, sumClose (Js.slice a b out1) = sumClose (Js.slice a b data))
    by (intros; apply sumClose_ext, slice_ext, Hcl1).
  assert (Hmacd : forall j, macdAt out1 j = macdAt data j)
    by (intros; apply macdAt_ext, Hcl1).
  unfold sameIndicators, window20 in *.
  repeat split.
  - destruct (19 <=? i) eqn:E; bools.
    + now rewrite V2a, V1a, Hw.
    + exact A20.
  - destruct (49 <=? i) eqn:E; bools.
    + now rewrite V2b, V1b, Hw.
    + exact A50.
  - destruct (14 <=? i) eqn:E; bools.
    + rewrite V2c, V1c by lia. f_equal. apply rsiValue_ext, Hcl1.
    + exact Arsi.
  - destruct (le_lt_dec 26 i).
    + now rewrite V2d, V1d, Hmacd.
    + now apply Hm26.
  - destruct (le_lt_dec 34 i).
    + rewrite V2e, V1e by lia.
      now rewrite (map_ext (macdAt out1) (macdAt data) Hmacd).
    + now apply Hm34.
  - destruct (19 <=? i) eqn:E; bools.
    + destruct (V2f E) as [-> _]. destruct (V1f E) as [-> _].
      now rewrite (bbSma_ext _ _ (slice_ext (i - 19) (i + 1) _ _ Hcl1)),
        (bbStdDev_ext _ _ (slice_ext (i - 19) (i + 1) _ _ Hcl1)).
    + apply Abb.
  - destruct (19 <=? i) eqn:E; bools.
    + destruct (V2f E) as [_ ->]. destruct (V1f E) as [_ ->].
      now rewrite (bbSma_ext _ _ (slice_ext (i - 19) (i + 1) _ _ Hcl1)),
        (bbStdDev_ext _ _ (slice_ext (i - 19) (i + 1) _ _ Hcl1)).
    + apply Abb.
Qed.

(** Annotating the output of the pass again, as [handleStockChange] does,
    changes none of the windowed indicators (moving averages, RSI, MACD and
    its signal, Bollinger bands) and none of the base fields: only the
    overlays are drawn anew. *)
Theorem reannotation_keeps_indicators rnd (data : list StockData) (k k' i : nat) :
  (i < length data)%nat ->
  let out1 := fst (calculateTechnicalIndicators rnd data k) in
  let out2 := fst (calculateTechnicalIndicators rnd out1 k') in
  length out2 = length data /\
  exists p1 p2,
    nth_error out1 i = Some p1 /\ nth_error out2 i = Some p2 /\
    base p2 = base p1 /\ sameIndicators p2 p1.
Proof.
  intros Hi. cbv zeta.
  destruct (reannotation_pointwise rnd data k k') as [Hlen Hpts].
  destruct (annotate_pointwise rnd data k) as [Hlen1 _].
  split; [congruence |].
  destruct (nth_error (fst (calculateTechnicalIndicators rnd data k)) i)
    as [p1 |] eqn:Hp1; [| apply nth_error_None in Hp1; lia].
  destruct (Hpts i p1 Hp1) as (p2 & Hp2 & Hb & Hs).
  now exists p1, p2.
Qed.

Lemma reannotation_keeps_indicators_witness :
  let rnd := fun _ : nat => 0.5 in
  let data := repeat (rawPoint "2024-01-02" 10 11 9 10 1000) 60 in
  let out1 := fst (calculateTechnicalIndicators rnd data 0) in
  let out2 := fst (calculateTechnicalIndicators rnd out1 7) in
  length out2 = length data /\
  exists p1 p2,
    nth_error out1 40 = Some p1 /\ nth_error out2 40 = Some p2 /\
    base p2 = base p1 /\ sameIndicators p2 p1.
Proof.
  apply (reannotation_keeps_indicators (fun _ => 0.5)
           (repeat (rawPoint "2024-01-02" 10 11 9 10 1000) 60) 0 7 40).
  rewrite flat60_length. lia.
Defined.

End IndicatorValueProps.

(* ================================================================= *)
(** ** The series generator: the points it builds *)

Module GeneratorSeriesProps.
Import Analytics Predicates GeneratorSpec IndicatorProps GeneratorProps.

(** *** The table of base prices *)

Lemma lookup_not_in (key : string) (table : list (string * R)) :
  ~ In key (map fst table) -> lookup key table = None.
Proof.
  induction table as [| [k v] rest IH]; simpl; intros Hnot; [reflexivity |].
  destruct (String.eqb_spec key k) as [-> | Hneq].
  - exfalso. apply Hnot. now left.
  - apply IH. intros Hin. apply Hnot. now right.
Qed.

Lemma lookup_in (key : string) (table : list (string * R)) (v : R) :
  lookup key table = Some v -> In v (map snd table).
Proof.
  induction table as [| [k w] rest IH]; simpl; [discriminate |].
  destruct (String.eqb key k).
  - intros H. injection H as ->. now left.
  - intros H. right. now apply IH.
Qed.

Lemma listed_price (symbol : string) (v : R) :
  lookup symbol basePrices = Some v -> 100 <= Js.orElse v 100.
Proof.
  intros Hv. apply lookup_in in Hv. unfold Js.orElse.
  destruct (Req_dec_T v 0); [lra |].
  simpl in Hv.
  repeat (destruct Hv as [<- | Hv]; [lra |]). contradiction.
Qed.

Lemma inherited_In (symbol : string) :
  inherited symbol = true <-> In symbol objectPrototypeNames.
Proof.
  unfold inherited. rewrite existsb_exists. split.
  - intros (x & Hx & Heq). apply String.eqb_eq in Heq. now subst.
  - intros H. exists symbol. split; [exact H | apply String.eqb_refl].
Qed.

(** No name of [Object.prototype] is a key of the table. *)
Lemma inherited_unlisted (symbol : string) :
  In symbol objectPrototypeNames -> lookup symbol basePrices = None.
Proof.
  intros H. simpl in H.
  repeat (destruct H as [<- | H]; [reflexivity |]). contradiction.
Qed.

Lemma base_price_number (symbol : string) :
  inherited symbol = false ->
  exists price,
    getBasePriceForSymbol symbol = Some price /\ 100 <= price /\
    initialPrice symbol = price.
Proof.
  intros Hn. unfold initialPrice, getBasePriceForSymbol. rewrite Hn.
  destruct (lookup symbol basePrices) as [v |] eqn:Hv.
  - exists (Js.orElse v 100). split; [reflexivity |].
    split; [now apply (listed_price symbol) | reflexivity].
  - exists 100. split; [reflexivity |]. split; [lra | reflexivity].
Qed.

(** The base price is not a number exactly for the names that the table
    inherits from [Object.prototype]; for every other symbol it is a number
    of at least 100, and exactly 100 for a symbol that the table does not
    list. *)
Theorem base_price_default (symbol : string) :
  (getBasePriceForSymbol symbol = None <-> In symbol objectPrototypeNames) /\
  forall price,
    getBasePriceForSymbol symbol = Some price ->
    100 <= price /\
    (~ In symbol (map fst basePrices) -> price = 100).
Proof.
  split.
  - rewrite <- inherited_In. unfold getBasePriceForSymbol. split.
    + destruct (lookup symbol basePrices); [discriminate |].
      destruct (inherited symbol); [reflexivity | discriminate].
    + intros Hi. rewrite (inherited_unlisted symbol) by now apply inherited_In.
      now rewrite Hi.
  - intros price. unfold getBasePriceForSymbol.
    destruct (lookup symbol basePrices) as [v |] eqn:Hv.
    + intros H. injection H as <-. split; [now apply (listed_price symbol) |].
      intros Hnot. now rewrite (lookup_not_in _ _ Hnot) in Hv.
    + destruct (inherited symbol); [discriminate |].
      intros H. injection H as <-. split; [lra | reflexivity].
Qed.

(** *** The loop *)

Lemma floor_volume (u : R) :
  0 <= u < 1 ->
  0 <= Js.floor (u * 10000000) < 10000000.
Proof.
  intros Hu. unfold Js.floor.
  pose proof (Zfloor_bound (u * 10000000)) as [Hlo Hhi].
  split.
  - apply IZR_le. apply Zfloor_lub. simpl. lra.
  - lra.
Qed.

Section Loop.
Variable rnd : nat -> R.
Variable isoDate : Z -> string.
Hypothesis Hrnd : forall j, 0 <= rnd j < 1.
Variables (symbol : string) (days k : nat).
Hypothesis Hsymbol : inherited symbol = false.

Lemma nextPrice_pos (price u : R) : 0 < price -> 0 <= u < 1 -> 0 < nextPrice price u.
Proof.
  intros Hp Hu. unfold nextPrice, drift.
  pose proof (randomChange_range u Hu). apply Rmult_lt_0_compat; lra.
Qed.

(** After [n] iterations: a positive price, [n] points, each a candle dated
    [n - days] days from today. *)
Lemma generatePrefix_inv (n : nat) :
  let '(price, _, data) := generatePrefix rnd isoDate symbol days k n in
  0 < price /\ length data = n /\
  forall j p, nth_error data j = Some p ->
    candle p /\ date p = isoDate (Z.of_nat j - Z.of_nat days) /\
    p = rawPoint (date p) (open p) (high p) (low p) (close p) (volume p).
Proof.
  induction n as [| n IH].
  - destruct (base_price_number symbol Hsymbol) as (b & _ & Hb & Hinit).
    unfold generatePrefix. cbn [seq fold_left]. rewrite Hinit.
    split; [lra |]. split; [reflexivity |]. intros [| j] p H; discriminate.
  - rewrite generatePrefix_succ.
    destruct (generatePrefix rnd isoDate symbol days k n) as [[price kn] data].
    destruct IH as (Hprice & Hlen & Hpts).
    cbn [generateStep].
    pose proof (nextPrice_pos price (rnd kn) Hprice (Hrnd kn)) as Hnext.
    set (cp := nextPrice price (rnd kn)) in *.
    split; [exact Hnext |]. split; [rewrite length_app; simpl; lia |].
    intros j p Hj.
    destruct (Nat.lt_ge_cases j (length data)) as [Hlt | Hge].
    + rewrite nth_error_app1 in Hj by exact Hlt. now apply Hpts.
    + rewrite nth_error_app2 in Hj by exact Hge.
      destruct (j - length data)%nat as [| j'] eqn:Hjd;
        [| destruct j'; discriminate].
      injection Hj as <-.
      assert (j = n) by lia. subst j.
      pose proof (Hrnd (kn + 1)%nat). pose proof (Hrnd (kn + 2)%nat).
      pose proof (Hrnd (kn + 3)%nat). pose proof (Hrnd (kn + 4)%nat).
      pose proof (floor_volume _ (Hrnd (kn + 5)%nat)) as Hvol.
      split; [| split; reflexivity].
      unfold candle. cbn.
      set (hi := cp * (1 + rnd (kn + 1)%nat * 0.02)).
      set (lo := cp * (1 - rnd (kn + 2)%nat * 0.02)).
      assert (Hlo : 0 < lo) by (unfold lo; apply Rmult_lt_0_compat; lra).
      assert (Hlh : lo <= hi) by (unfold lo, hi; nra).
      repeat split; try nra; try lra.
      exists (Zfloor (rnd (kn + 5)%nat * 10000000) + 1000000)%Z.
      rewrite plus_IZR. reflexivity.
Qed.

End Loop.

Lemma generated_points rnd isoDate (symbol : string) (days k : nat) :
  (forall j, 0 <= rnd j < 1) ->
  inherited symbol = false ->
  exists series k',
    generateMockStockData rnd isoDate symbol days k = Some (series, k') /\
    (exists data k0,
        (series, k') = calculateTechnicalIndicators rnd data k0) /\
    length series = days /\
    forall i p, nth_error series i = Some p ->
      (i < days)%nat /\
      date p = isoDate (Z.of_nat i - Z.of_nat days)%Z /\
      candle p.
Proof.
  intros Hrnd Hsym. unfold generateMockStockData, generateLoop.
  destruct (base_price_number symbol Hsym) as (b & -> & _).
  pose proof (generatePrefix_inv rnd isoDate Hrnd symbol days k Hsym days) as Hinv.
  destruct (generatePrefix rnd isoDate symbol days k days) as [[price k'] data].
  destruct Hinv as (_ & Hlen & Hpts).
  destruct (annotate_pointwise rnd data k') as [Hl Ha].
  destruct (calculateTechnicalIndicators rnd data k') as [series k''] eqn:Hout.
  cbn [fst] in *.
  exists series, k''. split; [reflexivity |].
  split; [exists data, k'; now rewrite Hout |].
  split; [now rewrite Hl |].
  intros i p Hp.
  assert (Hi : (i < days)%nat).
  { rewrite <- Hlen, <- Hl. apply nth_error_Some. congruence. }
  split; [exact Hi |].
  destruct (nth_error data i) as [d |] eqn:Hd;
    [| apply nth_error_None in Hd; lia].
  destruct (Ha i d Hd) as (q & Hq & Hb & _).
  assert (q = p) by congruence. subst q.
  destruct (Hpts i d Hd) as (Hc & Hdate & _).
  unfold base in Hb. injection Hb as E1 E2 E3 E4 E5 E6.
  split; [congruence |].
  unfold candle in *. rewrite E2, E3, E4, E5, E6. exact Hc.
Qed.

(** For a source of draws in [0, 1), a symbol that is not a name of
    [Object.prototype] and at most 252 days, [generateMockStockData]
    returns [days] points; the point at index [i] is dated [days - i] days
    before today, and it is a well-formed candle:
    [0 < low <= open, close <= high] and a whole volume in
    [1000000, 11000000). *)
Theorem generated_series_is_well_formed rnd isoDate (symbol : string) (days k i : nat) :
  (forall j, 0 <= rnd j < 1) ->
  ~ In symbol objectPrototypeNames ->
  (i < days <= 252)%nat ->
  exists series k' p,
    generateMockStockData rnd isoDate symbol days k = Some (series, k') /\
    length series = days /\
    nth_error series i = Some p /\
    date p = isoDate (Z.of_nat i - Z.of_nat days)%Z /\
    candle p.
Proof.
  intros Hrnd Hsym [Hi _].
  assert (Hn : inherited symbol = false).
  { destruct (inherited symbol) eqn:E; [| reflexivity].
    apply inherited_In in E. contradiction. }
  destruct (generated_points rnd isoDate symbol days k Hrnd Hn)
    as (series & k' & Hgen & _ & Hlen & Hpts).
  destruct (nth_error series i) as [p |] eqn:Hp;
    [| apply nth_error_None in Hp; lia].
  exists series, k', p. split; [exact Hgen |]. split; [exact Hlen |].
  split; [exact Hp |]. now apply (Hpts i p Hp).
Qed.

Lemma generated_series_is_well_formed_witness :
  let rnd := fun _ : nat => 0.5 in
  let isoDate := fun _ : Z => ""%string in
  exists series k' p,
    generateMockStockData rnd isoDate "TSLA" 252 0 = Some (series, k') /\
    length series = 252%nat /\
    nth_error series 251 = Some p /\
    date p = isoDate (Z.of_nat 251 - Z.of_nat 252)%Z /\
    candle p.
Proof.
  apply (generated_series_is_well_formed (fun _ => 0.5) (fun _ => ""%string)
           "TSLA" 252 0 251).
  - intros j. lra.
  - simpl. intros H.
    repeat (destruct H as [H | H]; [discriminate |]). contradiction.
  - lia.
Defined.

End GeneratorSeriesProps.

(* ================================================================= *)
(** ** The backtest: dates and the cash state *)

Module BacktestTraceProps.
Import Analytics Analytics.Backtest IndicatorValueProps.

(** One step pushes one record, dated as the point of its index, and leaves
    the records pushed before untouched. *)
Lemma backtestStep_push (data : list StockData) capital shares results i :
  exists capital' shares' r,
    backtestStep data (capital, shares, results) i
    = (capital', shares', results ++ [r]) /\
    date r = Analytics.date (pointAt i data) /\
    value r = capital' + shares' * close (pointAt i data) /\
    return_ r = (value r - 10000) / 10000 * 100 /\
    (Js.Rgtb (num (ma20 (pointAt i data))) (num (ma50 (pointAt i data))) = false ->
     shares = 0 -> capital' = capital /\ shares' = 0).
Proof.
  unfold backtestStep.
  set (current := pointAt i data). set (prev := pointAt (i - 1) data).
  destruct (Js.truthy (ma20 current) && Js.truthy (ma50 current)
            && Js.truthy (ma20 prev) && Js.truthy (ma50 prev));
    destruct (Js.Rgtb (num (ma20 current)) (num (ma50 current))) eqn:Hgt;
    destruct (Js.Rleb (num (ma20 prev)) (num (ma50 prev)));
    destruct (Js.Rgtb capital 0);
    destruct (Js.Rltb (num (ma20 current)) (num (ma50 current)));
    destruct (Js.Rgeb (num (ma20 prev)) (num (ma50 prev)));
    destruct (Js.Rgtb shares 0) eqn:Hsh;
    cbn [andb];
    do 3 eexists; (split; [reflexivity |]); cbn;
    (split; [reflexivity |]); (split; [reflexivity |]);
    (split; [reflexivity |]);
    intros Hno Hs; subst; try discriminate; try (split; reflexivity);
    unfold Js.Rgtb in Hsh; destruct (Rlt_dec 0 0); try lra; discriminate.
Qed.

(** The fold over a list of indices appends one record per index. *)
Lemma backtest_fold_push (data : list StockData) (indices : list nat)
  capital shares results :
  exists capital' shares' new,
    fold_left (backtestStep data) indices (capital, shares, results)
    = (capital', shares', results ++ new) /\
    map date new = map (fun i => Analytics.date (pointAt i data)) indices /\
    Forall (fun r => return_ r = (value r - 10000) / 10000 * 100) new /\
    (Forall (fun i => Js.Rgtb (num (ma20 (pointAt i data)))
                              (num (ma50 (pointAt i data))) = false) indices ->
     shares = 0 ->
     capital' = capital /\ shares' = 0 /\
     Forall (fun r => value r = capital) new).
Proof.
  revert capital shares results.
  induction indices as [| i indices IH]; intros capital shares results.
  - exists capital, shares, []. simpl. rewrite app_nil_r.
    repeat split; trivial; constructor.
  - cbn [fold_left].
    destruct (backtestStep_push data capital shares results i)
      as (c1 & s1 & r & -> & Hd & Hv & Hret & Hcash).
    destruct (IH c1 s1 (results ++ [r])) as (c2 & s2 & new & -> & Hds & Hrets & Hflat).
    exists c2, s2, (r :: new). rewrite <- app_assoc. simpl.
    split; [reflexivity |]. split; [now rewrite Hd, Hds |].
    split; [now constructor |].
    intros Hno Hs. inversion Hno as [| ? ? Hi Hrest]; subst.
    destruct (Hcash Hi eq_refl) as [-> ->].
    destruct (Hflat Hrest eq_refl) as (-> & -> & Hnew).
    repeat split; trivial. constructor; [| exact Hnew].
    rewrite Hv. lra.
Qed.

Lemma skipn_seq_nth {A} (d : A) (l : list A) (a : nat) :
  skipn a l = map (fun j => nth j l d) (seq a (length l - a)).
Proof.
  destruct (Nat.le_gt_cases a (length l)) as [Hle | Hgt].
  - rewrite <- (slice_seq d l a (length l - a)) by lia.
    unfold Js.slice. rewrite firstn_all2; [reflexivity |].
    rewrite length_skipn. lia.
  - replace (length l - a)%nat with 0%nat by lia. simpl.
    apply skipn_all2. lia.
Qed.

(** The trace of the backtest has one record per point of the series from
    index 50 on, in order and with the date of its point (a series of at
    most 50 points gives an empty trace), and the return of every record is
    [(value - 10000) / 10000 * 100]. *)
Theorem backtest_dates (data : list StockData) :
  map date (backtestStrategy data) = map Analytics.date (skipn 50 data) /\
  Forall (fun r => return_ r = (value r - 10000) / 10000 * 100)
         (backtestStrategy data).
Proof.
  unfold backtestStrategy.
  destruct (backtest_fold_push data (seq 50 (length data - 50)) 10000 0 [])
    as (c & s & new & -> & Hd & Hret & _).
  cbn [app]. split; [| exact Hret].
  rewrite Hd, (skipn_seq_nth (rawPoint "" 0 0 0 0 0)), map_map. reflexivity.
Qed.

(** The strategy stays in cash as long as no day has seen [ma20] above
    [ma50]: up to such a day every record has value 10000 and return 0.
    In particular a series that carries no moving averages never trades. *)
Theorem backtest_stays_in_cash (data : list StockData) (n j : nat) :
  (50 + n <= length data)%nat ->
  (forall t, (50 <= t < 50 + n)%nat ->
     Js.Rgtb (num (ma20 (pointAt t data))) (num (ma50 (pointAt t data))) = false) ->
  (j < n)%nat ->
  exists r, nth_error (backtestStrategy data) j = Some r /\
            value r = 10000 /\ return_ r = 0.
Proof.
  intros Hlen Hno Hj. unfold backtestStrategy.
  replace (length data - 50)%nat with (n + (length data - 50 - n))%nat by lia.
  rewrite seq_app, fold_left_app.
  destruct (backtest_fold_push data (seq 50 n) 10000 0 [])
    as (c & s & new & Hfold & Hd & Hret & Hflat).
  rewrite Hfold.
  destruct Hflat as (-> & -> & Hnew); [| reflexivity |].
  { apply Forall_forall. intros t Ht. apply in_seq in Ht. apply Hno. lia. }
  destruct (backtest_fold_push data (seq (50 + n) (length data - 50 - n))
              10000 0 ([] ++ new)) as (c2 & s2 & new2 & Hfold2 & _).
  rewrite Hfold2. cbn [app].
  assert (Hn : length new = n).
  { rewrite <- (length_map date), Hd, length_map, length_seq. reflexivity. }
  destruct (nth_error new j) as [r |] eqn:Hr;
    [| apply nth_error_None in Hr; lia].
  exists r. rewrite nth_error_app1 by lia. split; [exact Hr |].
  apply nth_error_In in Hr.
  rewrite Forall_forall in Hnew, Hret.
  rewrite (Hret r Hr), (Hnew r Hr). split; [reflexivity | lra].
Qed.

Lemma backtest_stays_in_cash_witness :
  let data := repeat (rawPoint "2024-01-02" 10 11 9 10 1000) 60 in
  exists r, nth_error (backtestStrategy data) 3 = Some r /\
            value r = 10000 /\ return_ r = 0.
Proof.
  apply (backtest_stays_in_cash
           (repeat (rawPoint "2024-01-02" 10 11 9 10 1000) 60) 10 3).
  - rewrite repeat_length. lia.
  - intros t Ht. unfold pointAt.
    rewrite (nth_indep _ _ (rawPoint "2024-01-02" 10 11 9 10 1000))
      by (rewrite repeat_length; lia).
    rewrite nth_repeat. cbn. unfold Js.Rgtb.
    destruct (Rlt_dec 0 0); [lra | reflexivity].
  - lia.
Defined.

End BacktestTraceProps.

(* ================================================================= *)
(** ** The portfolio metrics *)

Module MetricsProps.
Import Analytics Metrics MetricsSpec MonteCarloProps PortfolioProps.

(** *** The maximum drawdown *)

Lemma firstn_snoc {A} (d : A) (l : list A) (n : nat) :
  (n < length l)%nat -> firstn (S n) l = firstn n l ++ [nth n l d].
Proof.
  revert n. induction l as [| x l IH]; intros n Hn; simpl in Hn; [lia |].
  destruct n as [| n]; [reflexivity |].
  rewrite !firstn_cons. cbn [nth]. rewrite (IH n) by lia. reflexivity.
Qed.

(** The relative decline from a level [x] to the close [c] grows with
    [x]. *)
Lemma decline_mono (c x y : R) :
  0 < c -> 0 < x <= y -> (x - c) / x <= (y - c) / y.
Proof.
  intros Hc [Hx Hxy].
  assert (Hinv : / y <= / x) by (apply Rinv_le_contravar; lra).
  replace ((x - c) / x) with (1 - c * / x) by (field; lra).
  replace ((y - c) / y) with (1 - c * / y) by (field; lra).
  nra.
Qed.

Section Drawdown.
Variable data : list StockData.
Hypothesis Hpos : Forall (fun p => 0 < close p) data.

(** The decline from the close at index [a] to the close at index [b]. *)
Local Abbreviation decline a b :=
  ((closeAt a data - closeAt b data) / closeAt a data).

Lemma closeAt_pos (a : nat) : (a < length data)%nat -> 0 < closeAt a data.
Proof.
  intros Ha. unfold closeAt.
  destruct (nth_error data a) as [p |] eqn:Hp;
    [| apply nth_error_None in Hp; lia].
  rewrite Forall_forall in Hpos. apply Hpos. eapply nth_error_In; eauto.
Qed.

(** The state of the loop after [n] items. *)
Lemma drawdown_prefix (n : nat) :
  (n <= length data)%nat -> (0 < length data)%nat ->
  let '(m, peak) := fold_left drawdownStep (firstn n data) (0, closeAt 0 data) in
  0 < peak /\
  (forall a, (a < n)%nat -> closeAt a data <= peak) /\
  (exists a, (a < n \/ a = 0)%nat /\ closeAt a data = peak) /\
  0 <= m < 1 /\
  (forall a b, (a <= b < n)%nat -> decline a b <= m) /\
  (exists b pk, (b < length data)%nat /\ isPeak data b pk /\
                m = (pk - closeAt b data) / pk).
Proof.
  intros Hn Hne. induction n as [| n IH].
  - simpl. pose proof (closeAt_pos 0 Hne) as H0.
    split; [exact H0 |]. split; [intros; lia |].
    split; [exists 0%nat; auto |]. split; [lra |].
    split; [intros; lia |].
    exists 0%nat, (closeAt 0 data). split; [lia |]. split.
    + split; [exists 0%nat; split; [lia | reflexivity] |].
      intros a Ha. replace a with 0%nat by lia. lra.
    + field. lra.
  - rewrite (firstn_snoc (rawPoint "" 0 0 0 0 0)) by lia.
    rewrite fold_left_app. cbn [fold_left].
    destruct (fold_left drawdownStep (firstn n data) (0, closeAt 0 data))
      as [m peak].
    destruct IH as (Hpeak & Hle & (ap & Hap & Hapv) & Hm & Hbound & Hatt); [lia |].
    unfold drawdownStep.
    assert (Hc : close (nth n data (rawPoint "" 0 0 0 0 0)) = closeAt n data).
    { unfold closeAt.
      destruct (nth_error data n) as [p |] eqn:Hp;
        [| apply nth_error_None in Hp; lia].
      now rewrite (nth_error_nth _ _ _ Hp). }
    rewrite Hc. pose proof (closeAt_pos n ltac:(lia)) as Hcn.
    set (c := closeAt n data) in *.
    set (peak' := if Js.Rgtb c peak then c else peak).
    assert (Hpk : peak <= peak' /\ c <= peak' /\
                  exists a, (a <= n)%nat /\ closeAt a data = peak').
    { unfold peak', Js.Rgtb. destruct (Rlt_dec peak c).
      - repeat split; try lra. exists n. split; [lia | reflexivity].
      - repeat split; try lra. exists ap. split; [lia | exact Hapv]. }
    destruct Hpk as (Hp1 & Hp2 & (a' & Ha' & Ha'v)).
    assert (Hdd : 0 <= (peak' - c) / peak' < 1).
    { split.
      - apply Rmult_le_pos; [lra |]. left. apply Rinv_0_lt_compat. lra.
      - apply Rmult_lt_reg_r with peak'; [lra |].
        unfold Rdiv. rewrite Rmult_assoc, Rinv_l by lra. lra. }
    set (dd := (peak' - c) / peak') in *.
    assert (Hnew : forall a, (a <= n)%nat -> decline a n <= dd).
    { intros a Ha. unfold dd. fold c.
      assert (Hca : 0 < closeAt a data) by (apply closeAt_pos; lia).
      apply decline_mono; [exact Hcn |]. split; [exact Hca |].
      destruct (Nat.eq_dec a n) as [-> | Hneq]; [exact Hp2 |].
      apply Rle_trans with peak; [apply Hle; lia | exact Hp1]. }
    split; [lra |].
    split.
    { intros a Ha. destruct (Nat.eq_dec a n) as [-> | Hneq]; [exact Hp2 |].
      apply Rle_trans with peak; [apply Hle; lia | exact Hp1]. }
    split; [exists a'; split; [lia | exact Ha'v] |].
    unfold Js.Rgtb. destruct (Rlt_dec m dd) as [Hlt | Hge].
    + split; [lra |]. split.
      * intros a b Hab. destruct (Nat.eq_dec b n) as [-> | Hneq].
        -- apply Hnew. lia.
        -- apply Rle_trans with m; [apply Hbound; lia | lra].
      * exists n, peak'. split; [lia |]. split; [| reflexivity].
        split; [exists a'; split; [lia | exact Ha'v] |].
        intros a Ha. destruct (Nat.eq_dec a n) as [-> | Hneq]; [exact Hp2 |].
        apply Rle_trans with peak; [apply Hle; lia | exact Hp1].
    + split; [lra |]. split; [| exact Hatt].
      intros a b Hab. destruct (Nat.eq_dec b n) as [-> | Hneq].
      * apply Rle_trans with dd; [apply Hnew; lia | lra].
      * apply Hbound. lia.
Qed.

End Drawdown.

(** On a non-empty series of positive closes, the maximum drawdown is the
    largest decline from the running peak: for every day [b], with [peak]
    the highest close of the days [0 .. b], the decline
    [(peak - close_b) / peak] is at most the result, the result is the
    decline of one of the days, and it lies in [0, 1]. *)
Theorem max_drawdown_is_largest_decline (data : list StockData) :
  data <> [] ->
  Forall (fun p => 0 < close p) data ->
  exists m,
    calculateMaxDrawdown data = Some m /\
    0 <= m <= 1 /\
    (forall b peak, (b < length data)%nat -> isPeak data b peak ->
       (peak - closeAt b data) / peak <= m) /\
    (exists b peak, (b < length data)%nat /\ isPeak data b peak /\
       m = (peak - closeAt b data) / peak).
Proof.
  intros Hne Hpos.
  destruct data as [| first rest] eqn:Hdata; [contradiction |].
  rewrite <- Hdata in *. clear Hne.
  assert (Hlen : (0 < length data)%nat) by (rewrite Hdata; simpl; lia).
  pose proof (drawdown_prefix data Hpos (length data) (le_n _) Hlen) as Hinv.
  rewrite firstn_all in Hinv.
  assert (Hcm : calculateMaxDrawdown data
                = Some (fst (fold_left drawdownStep data (0, closeAt 0 data)))).
  { rewrite Hdata. reflexivity. }
  rewrite Hcm.
  destruct (fold_left drawdownStep data (0, closeAt 0 data)) as [m peak].
  destruct Hinv as (_ & _ & _ & Hm & Hbound & Hatt).
  exists m. cbn [fst]. split; [reflexivity |]. split; [lra |].
  split; [| exact Hatt].
  intros b pk Hb [(a & Ha & <-) _]. apply Hbound. lia.
Qed.

Lemma max_drawdown_is_largest_decline_witness :
  let data := [rawPoint "2024-01-02" 10 11 9 10 1000;
               rawPoint "2024-01-03" 10 11 7 8 1000] in
  exists m,
    calculateMaxDrawdown data = Some m /\
    0 <= m <= 1 /\
    (forall b peak, (b < length data)%nat -> isPeak data b peak ->
       (peak - closeAt b data) / peak <= m) /\
    (exists b peak, (b < length data)%nat /\ isPeak data b peak /\
       m = (peak - closeAt b data) / peak).
Proof.
  apply (max_drawdown_is_largest_decline
           [rawPoint "2024-01-02" 10 11 9 10 1000;
            rawPoint "2024-01-03" 10 11 7 8 1000]).
  - discriminate.
  - repeat constructor; simpl; lra.
Defined.

(** *** The quantiles of the returns *)






End MetricsProps.

(* ================================================================= *)
(** ** The Monte Carlo simulator: the range of its results *)

Module MonteCarloRangeProps.
Import MonteCarlo MonteCarloProps SumProps IndicatorValueProps.

Section Range.
Variable rnd : nat -> R.
Hypothesis Hrnd : forall j, 0 <= rnd j < 1.




End Range.




End MonteCarloRangeProps.

(* ================================================================= *)
(** ** The volatility surface *)

Module SurfaceProps.
Import Surface.

Section Grid.
Variable rnd : nat -> R.
Hypothesis Hrnd : forall j, 0 <= rnd j < 1.

Lemma strikeLoop_spec (ks : list R) (e : R) (k : nat) :
  map (fun p => (expiration p, strike p)) (fst (strikeLoop rnd ks e k))
    = map (fun s => (e, s)) ks /\
  Forall (fun p => 0.15 <= volatility p < 0.45) (fst (strikeLoop rnd ks e k)) /\
  snd (strikeLoop rnd ks e k) = (k + length ks)%nat.
Proof.
  revert k. induction ks as [| s ks IH]; intros k; cbn [strikeLoop].
  - simpl. repeat split; [constructor | lia].
  - destruct (IH (S k)) as (Hm & Hv & Hk).
    destruct (strikeLoop rnd ks e (S k)) as [ps k']. cbn [fst snd] in *.
    split; [simpl; now rewrite Hm |]. split; [| simpl; lia].
    constructor; [| exact Hv]. cbn. pose proof (Hrnd k). lra.
Qed.

Lemma expirationLoop_spec (es ks : list R) (k : nat) :
  map (fun p => (expiration p, strike p)) (fst (expirationLoop rnd es ks k))
    = list_prod es ks /\
  Forall (fun p => 0.15 <= volatility p < 0.45)
         (fst (expirationLoop rnd es ks k)) /\
  snd (expirationLoop rnd es ks k) = (k + length es * length ks)%nat.
Proof.
  revert k. induction es as [| e es IH]; intros k; cbn [expirationLoop].
  - simpl. repeat split; [constructor | lia].
  - destruct (strikeLoop_spec ks e k) as (Hm1 & Hv1 & Hk1).
    destruct (strikeLoop rnd ks e k) as [ps k1]. cbn [fst snd] in *.
    destruct (IH k1) as (Hm2 & Hv2 & Hk2).
    destruct (expirationLoop rnd es ks k1) as [qs k2]. cbn [fst snd] in *.
    split; [rewrite map_app, Hm1, Hm2; reflexivity |].
    split; [now apply Forall_app | simpl; lia].
Qed.

End Grid.

(** For draws in [0, 1), the surface has one point for every pair of an
    expiration and a strike, 25 in all, expiration by expiration and strike
    by strike in the order of the two tables, each with a volatility in
    [0.15, 0.45); it makes 25 draws. *)
Theorem surface_covers_grid rnd (k : nat) :
  (forall j, 0 <= rnd j < 1) ->
  let surface := fst (generateVolatilitySurface rnd k) in
  length surface = 25%nat /\
  map (fun p => (expiration p, strike p)) surface
    = list_prod expirations strikes /\
  Forall (fun p => 0.15 <= volatility p < 0.45) surface /\
  snd (generateVolatilitySurface rnd k) = (k + 25)%nat.
Proof.
  intros Hrnd. cbv zeta. unfold generateVolatilitySurface.
  destruct (expirationLoop_spec rnd Hrnd expirations strikes k) as (Hm & Hv & Hk).
  split; [| split; [exact Hm | split; [exact Hv | exact Hk]]].
  rewrite <- (length_map (fun p => (expiration p, strike p))), Hm.
  reflexivity.
Qed.

Lemma surface_covers_grid_witness :
  let rnd := fun _ : nat => 0.5 in
  let surface := fst (generateVolatilitySurface rnd 0) in
  length surface = 25%nat /\
  map (fun p => (expiration p, strike p)) surface
    = list_prod expirations strikes /\
  Forall (fun p => 0.15 <= volatility p < 0.45) surface /\
  snd (generateVolatilitySurface rnd 0) = (0 + 25)%nat.
Proof.
  apply (surface_covers_grid (fun _ => 0.5) 0).
  intros j. lra.
Defined.

End SurfaceProps.

(* ================================================================= *)
(** ** The blended allocator *)

Module BlackLittermanProps.
Import BlackLitterman SumProps PortfolioProps.

Lemma truthy_num (o : option R) :
  Js.truthy o = true -> exists v, o = Some v /\ v <> 0 /\ Analytics.Backtest.num o = v.
Proof.
  destruct o as [v |]; simpl; [| discriminate].
  destruct (Req_dec_T v 0); [discriminate |]. intros _. now exists v.
Qed.

Lemma blend_pos (assets : list string) (views : list (string * R)) (ret : R) (i : nat) :
  0 < ret -> Forall (fun kv => 0 < snd kv) views -> 0 < blend assets views ret i.
Proof.
  intros Hr Hv. unfold blend. cbv zeta.
  destruct (Js.truthy (viewOf views (nth_error assets i))) eqn:Ht; [| exact Hr].
  destruct (truthy_num _ Ht) as (v & Hview & _ & ->).
  assert (0 < v); [| lra].
  unfold viewOf in Hview.
  destruct (nth_error assets i) as [a |]; [| discriminate].
  clear Ht. induction views as [| [k w] rest IH]; simpl in Hview; [discriminate |].
  inversion Hv as [| ? ? Hw Hrest]; subst.
  destruct (String.eqb a k).
  - injection Hview as <-. exact Hw.
  - now apply IH.
Qed.

(** For non-empty priors that are all positive and views that are all
    positive, the optimal weights are the blended returns divided by their
    sum: one positive weight per prior, each at most 1, summing to 1. *)
Theorem blended_weights_sum_to_one
  (assets : list string) (marketWeights priors : list R)
  (views : list (string * R)) :
  priors <> [] ->
  Forall (fun x => 0 < x) priors ->
  Forall (fun kv => 0 < snd kv) views ->
  let res := blackLitterman assets marketWeights priors views in
  length (optimalWeights res) = length priors /\
  Js.sum (optimalWeights res) = 1 /\
  Forall (fun w => 0 < w <= 1) (optimalWeights res).
Proof.
  intros Hne Hp Hv res. subst res. cbn [optimalWeights blackLitterman].
  set (rets := blReturns assets views priors).
  assert (Hpos : Forall (fun x => 0 < x) rets).
  { unfold rets, blReturns, Portfolio.mapi. apply mapi_from_Forall.
    intros j x Hj. apply blend_pos; [| exact Hv].
    rewrite Forall_forall in Hp. apply Hp. eapply nth_error_In; eauto. }
  assert (Hlen : length rets = length priors).
  { unfold rets, blReturns, Portfolio.mapi. apply mapi_from_length. }
  assert (Hne' : rets <> []).
  { intros Hnil. rewrite Hnil in Hlen. destruct priors; [contradiction | discriminate]. }
  pose proof (sum_pos rets Hne' Hpos) as Htot.
  split; [now rewrite length_map |]. split.
  - rewrite (map_ext _ (fun x => x * / Js.sum rets)) by (intros; reflexivity).
    rewrite sum_map_scale. field. lra.
  - apply Forall_forall. intros w Hw. apply in_map_iff in Hw.
    destruct Hw as (x & <- & Hx).
    assert (Hx0 : 0 < x) by (rewrite Forall_forall in Hpos; now apply Hpos).
    assert (Hxs : x <= Js.sum rets).
    { clear - Hx Hpos. induction rets as [| y l IH]; [contradiction |].
      inversion Hpos as [| ? ? Hy Hl]; subst. rewrite sum_cons.
      assert (0 <= Js.sum l).
      { apply sum_nonneg. eapply Forall_impl; [| exact Hl]. intros; simpl in *; lra. }
      destruct Hx as [-> | Hx]; [lra |]. specialize (IH Hl Hx). lra. }
    split.
    + apply Rdiv_lt_0_compat; lra.
    + apply Rmult_le_reg_r with (Js.sum rets); [lra |].
      unfold Rdiv. rewrite Rmult_assoc, Rinv_l by lra. lra.
Qed.

Lemma blended_weights_sum_to_one_witness :
  let res := runBlackLitterman in
  length (optimalWeights res) = length [0.08; 0.04; 0.06; 0.07] /\
  Js.sum (optimalWeights res) = 1 /\
  Forall (fun w => 0 < w <= 1) (optimalWeights res).
Proof.
  apply (blended_weights_sum_to_one
           ["Stocks"; "Bonds"; "Commodities"; "REITs"]%string
           [0.6; 0.3; 0.05; 0.05] [0.08; 0.04; 0.06; 0.07]
           [("Stocks", 0.10); ("Bonds", 0.03)]%string).
  - discriminate.
  - repeat constructor; lra.
  - repeat constructor; simpl; lra.
Defined.

End BlackLittermanProps.

(* ================================================================= *)
(** ** The row adapter: what it builds *)

Module AdapterSeriesProps.
Import RowAdapter AdapterSpec AdapterProps IndicatorProps Predicates.

Lemma orNum_nonzero (o : option R) (b : R) : b <> 0 -> orNum o b <> 0.
Proof.
  intros Hb. unfold orNum, Js.orDefault, Js.orElse.
  destruct o as [x |]; [| exact Hb].
  destruct (Req_dec_T x 0); assumption.
Qed.

(** What the adapter builds from any row: a base point whose four prices
    are not zero. *)
Lemma convertRow_point rnd today (item : Row) (k : nat) :
  exists d o h l c v,
    fst (convertRow rnd today item k) = Analytics.rawPoint d o h l c v /\
    o <> 0 /\ h <> 0 /\ l <> 0 /\ c <> 0 /\
    (k <= snd (convertRow rnd today item k) <= S k)%nat.
Proof.
  unfold convertRow. cbn [fst snd]. do 6 eexists. split; [reflexivity |].
  assert (H100 : 100 <> 0) by lra.
  repeat split; try (repeat apply orNum_nonzero; exact H100);
    destruct (negb _ && negb _); lia.
Qed.

Lemma convertRows_spec rnd today (data : list Row) (k : nat) :
  length (fst (convertRows rnd today data k)) = length data /\
  Forall (fun p => exists d o h l c v,
            p = Analytics.rawPoint d o h l c v /\
            o <> 0 /\ h <> 0 /\ l <> 0 /\ c <> 0)
         (fst (convertRows rnd today data k)) /\
  (k <= snd (convertRows rnd today data k) <= k + length data)%nat.
Proof.
  revert k. induction data as [| item rest IH]; intros k; cbn [convertRows].
  - simpl. repeat split; [constructor | lia | lia].
  - destruct (convertRow_point rnd today item k)
      as (d & o & h & l & c & v & Hp & Ho & Hh & Hl & Hc & Hk).
    destruct (convertRow rnd today item k) as [p k1]. cbn [fst snd] in *.
    destruct (IH k1) as (Hlen & Hall & Hk2).
    destruct (convertRows rnd today rest k1) as [ps k2]. cbn [fst snd] in *.
    split; [simpl; now rewrite Hlen |]. split; [| simpl; lia].
    constructor; [| exact Hall]. now exists d, o, h, l, c, v.
Qed.

(** An upload of at least one row replaces the series by one point per row,
    in order, none of whose open, high, low and close is zero: a price that
    is missing or zero in the row has been replaced by a fallback.  An
    empty upload leaves the series as it is and draws nothing. *)
Theorem upload_replaces_series rnd today (data : list Row)
  (stockData : list Analytics.StockData) (k : nat) :
  data <> [] ->
  let series := fst (handleCustomDataProcessed rnd today data stockData k) in
  length series = length data /\
  Forall (fun p => Analytics.open p <> 0 /\ Analytics.high p <> 0 /\
                   Analytics.low p <> 0 /\ Analytics.close p <> 0) series /\
  handleCustomDataProcessed rnd today [] stockData k = (stockData, k).
Proof.
  intros Hne. cbv zeta. unfold handleCustomDataProcessed.
  destruct (convertRows_spec rnd today data k) as (Hlen & Hall & _).
  destruct (convertRows rnd today data k) as [converted k']. cbn [fst] in *.
  destruct converted as [| c0 cs] eqn:Hconv.
  { destruct data; [contradiction | discriminate]. }
  rewrite <- Hconv in *.
  destruct (annotate_pointwise rnd converted k') as [Hl Hpts].
  split; [congruence |]. split; [| reflexivity].
  apply Forall_forall. intros p Hp. apply In_nth_error in Hp.
  destruct Hp as [i Hi].
  destruct (nth_error converted i) as [d |] eqn:Hd.
  2: { apply nth_error_None in Hd. rewrite <- Hl in Hd.
       apply nth_error_None in Hd. congruence. }
  destruct (Hpts i d Hd) as (q & Hq & Hb & _).
  assert (q = p) by congruence. subst q.
  rewrite Forall_forall in Hall.
  destruct (Hall d (nth_error_In _ _ Hd))
    as (dd & o & h & l & c & v & -> & Ho & Hh & Hl' & Hc).
  unfold base in Hb. cbn in Hb. injection Hb as _ -> -> -> -> _. auto.
Qed.

Lemma upload_replaces_series_witness :
  let rnd := fun _ : nat => 0.5 in
  let data := [emptyRow] in
  let series := fst (handleCustomDataProcessed rnd "2024-01-02" data [] 0) in
  length series = length data /\
  Forall (fun p => Analytics.open p <> 0 /\ Analytics.high p <> 0 /\
                   Analytics.low p <> 0 /\ Analytics.close p <> 0) series /\
  handleCustomDataProcessed rnd "2024-01-02" [] [] 0 = ([], 0%nat).
Proof.
  apply (upload_replaces_series (fun _ => 0.5) "2024-01-02" [emptyRow] [] 0).
  discriminate.
Defined.

(** A row that carries the six base fields of a point under the lower-case
    keys, with a date that is not empty and numbers that are not zero, is
    converted back to that point, and no filler is drawn. *)
Theorem row_of_point_round_trip rnd today (p : Analytics.StockData) (k : nat) :
  Analytics.date p <> ""%string ->
  Analytics.open p <> 0 -> Analytics.high p <> 0 -> Analytics.low p <> 0 ->
  Analytics.close p <> 0 -> Analytics.volume p <> 0 ->
  convertRow rnd today (rowOfPoint p) k =
  (Analytics.rawPoint (Analytics.date p) (Analytics.open p) (Analytics.high p)
     (Analytics.low p) (Analytics.close p) (Analytics.volume p), k).
Proof.
  intros Hd Ho Hh Hl Hc Hv. unfold convertRow, rowOfPoint.
  cbn [date Date open Open high High low Low close Close price Price
       volume Volume].
  rewrite !orNum_some by assumption.
  assert (Ht : Js.truthy (Some (Analytics.volume p)) = true).
  { simpl. destruct (Req_dec_T (Analytics.volume p) 0); [contradiction | reflexivity]. }
  rewrite Ht. cbn [negb andb]. f_equal. f_equal.
  unfold orStr. destruct (String.eqb_spec (Analytics.date p) ""); [contradiction | reflexivity].
Qed.

Lemma row_of_point_round_trip_witness :
  let p := Analytics.rawPoint "2024-01-02" 10 11 9 10 1000 in
  convertRow (fun _ => 0.5) "2024-02-01" (rowOfPoint p) 0 =
  (Analytics.rawPoint (Analytics.date p) (Analytics.open p) (Analytics.high p)
     (Analytics.low p) (Analytics.close p) (Analytics.volume p), 0%nat).
Proof.
  apply (row_of_point_round_trip (fun _ => 0.5) "2024-02-01"
           (Analytics.rawPoint "2024-01-02" 10 11 9 10 1000) 0);
    simpl; first [discriminate | lra].
Defined.

End AdapterSeriesProps.

(* ================================================================= *)
(** ** The option pricer: the approximated CDF and the adjustment *)

Module PricerShapeProps.
Import JsNum OptionPricer PricerReals PricerProps.

(** The magnitude [sqrt (1 - exp (-2 x^2 / pi))] of the approximation. *)
Local Abbreviation mag x :=
  (R_sqrt.sqrt (1 - Rtrigo_def.exp (- (2) * x * x / PI))).

Lemma mag_range (x : R) : 0 <= mag x <= 1.
Proof.
  pose proof (exp_arg_le_1 x) as Hle.
  pose proof (exp_pos (- (2) * x * x / PI)) as Hpos.
  split; [apply sqrt_pos |].
  apply Rle_trans with (R_sqrt.sqrt 1); [apply sqrt_le_1_alt; lra |].
  rewrite sqrt_1. lra.
Qed.

Lemma mag_even (x : R) : mag (- x) = mag x.
Proof. f_equal. f_equal. f_equal. f_equal. ring. Qed.

Lemma mag_mono (x y : R) : 0 <= x <= y -> mag x <= mag y.
Proof.
  intros [Hx Hxy]. pose proof PI_RGT_0 as HPI.
  apply sqrt_le_1_alt.
  assert (Harg : - (2) * y * y / PI <= - (2) * x * x / PI).
  { assert (Hsq : x * x <= y * y) by nra.
    assert (Hinv : 0 < / PI) by (now apply Rinv_0_lt_compat).
    unfold Rdiv. nra. }
  destruct Harg as [Hlt | Heq].
  - pose proof (exp_increasing _ _ Hlt). lra.
  - rewrite Heq. lra.
Qed.

Lemma sgnR_cases (x : R) :
  (0 < x /\ sgnR x = 1) \/ (x < 0 /\ sgnR x = -1) \/ (x = 0 /\ sgnR x = 0).
Proof.
  unfold sgnR, Rsign.
  destruct (Rlt_dec 0 x); [left; split; [assumption | reflexivity] |].
  destruct (Rlt_dec x 0); [right; left; split; [assumption | reflexivity] |].
  right; right. split; [lra | reflexivity].
Qed.

Lemma mag_zero : mag 0 = 0.
Proof.
  replace (- (2) * 0 * 0 / PI) with 0 by (unfold Rdiv; ring).
  rewrite exp_0. replace (1 - 1) with 0 by lra. apply sqrt_0.
Qed.

Lemma PhiR_mono (x y : R) : x <= y -> PhiR x <= PhiR y.
Proof.
  intros Hxy. unfold PhiR.
  pose proof (mag_range x) as Hx. pose proof (mag_range y) as Hy.
  pose proof mag_zero as H0.
  assert (sgnR x * mag x <= sgnR y * mag y); [| lra].
  destruct (sgnR_cases x) as [[Hx0 ->] | [[Hx0 ->] | [Hx0 ->]]];
    destruct (sgnR_cases y) as [[Hy0 ->] | [[Hy0 ->] | [Hy0 ->]]];
    try lra.
  - pose proof (mag_mono x y ltac:(lra)). lra.
  - pose proof (mag_mono (- y) (- x) ltac:(lra)) as Hm.
    rewrite !mag_even in Hm. lra.
Qed.

(** [normCDF] behaves like a distribution function: on finite arguments
    its value lies in [0, 1], it does not decrease, [normCDF(-x)] is
    [1 - normCDF(x)] and [normCDF(0)] is 0.5; it is 1 at +Infinity, 0 at
    -Infinity, and NaN at NaN only. *)
Theorem normCDF_is_distribution_like :
  (forall x : R, exists y,
      normCDF (Fin x) = Fin y /\ 0 <= y <= 1 /\
      normCDF (Fin (- x)) = Fin (1 - y)) /\
  (forall x x' y y' : R,
      x <= x' -> normCDF (Fin x) = Fin y -> normCDF (Fin x') = Fin y' ->
      y <= y') /\
  normCDF (Fin 0) = Fin 0.5 /\
  normCDF PInf = Fin 1 /\ normCDF NInf = Fin 0 /\
  (forall a, normCDF a = NaN <-> a = NaN).
Proof.
  split; [| split; [| split; [| split; [| split]]]].
  - intros x. exists (PhiR x). rewrite !normCDF_fin.
    pose proof (mag_range x) as Hm. pose proof (mag_even x) as He.
    split; [reflexivity |].
    assert (Hs : sgnR (- x) = - sgnR x).
    { destruct (sgnR_cases x) as [[Hx ->] | [[Hx ->] | [Hx ->]]];
        destruct (sgnR_cases (- x)) as [[Hy ->] | [[Hy ->] | [Hy ->]]]; lra. }
    unfold PhiR. rewrite Hs.
    replace (- (2) * - x * - x / PI) with (- (2) * x * x / PI)
      by (unfold Rdiv; ring).
    split.
    + destruct (sgnR_cases x) as [[Hx ->] | [[Hx ->] | [Hx ->]]]; lra.
    + f_equal. lra.
  - intros x x' y y' Hxx' Hy Hy'. rewrite normCDF_fin in Hy, Hy'.
    injection Hy as <-. injection Hy' as <-. now apply PhiR_mono.
  - rewrite normCDF_fin. f_equal. unfold PhiR.
    destruct (sgnR_cases 0) as [[Hx _] | [[Hx _] | [_ ->]]]; lra.
  - apply normCDF_pinf.
  - apply normCDF_ninf.
  - intros a. split.
    + intros Ha. destruct a as [x | | |]; trivial.
      * rewrite normCDF_fin in Ha. discriminate.
      * rewrite normCDF_pinf in Ha. discriminate.
      * rewrite normCDF_ninf in Ha. discriminate.
    + intros ->. reflexivity.
Qed.

(** On an input in the ordinary ranges (spot and strike between 0.01 and
    1000000, 1 to 3650 days, a rate between -100 and 100 percent, a
    volatility between 0.01 and 1000 percent), the call price of the quote
    is a number of at least 0.01 and never below the base price
    [S * Phi(d1) - K * exp(-r*T) * Phi(d2)]: in the money it is the base
    price plus the premium [sigma * S * 0.1 * (1 + |S-K|/K)] (or the tick
    0.01 if that is larger), and otherwise it is at least the floor
    [max(0.1, T) * sigma * S * 0.05]. *)
Theorem adjustment_never_lowers_call (S K days rate vol : R) :
  0.01 <= S <= 1000000 -> 0.01 <= K <= 1000000 ->
  1 <= days <= 3650 -> -100 <= rate <= 100 -> 0.01 <= vol <= 1000 ->
  exists b c : R,
    callBase S K days rate vol = Fin b /\
    call (priceAt S K days rate vol) = Fin c /\
    b <= c /\ 0.01 <= c /\
    (K < S ->
       c = Rmax (b + vol / 100 * S * 0.1 * (1 + Rabs (S - K) / K)) 0.01) /\
    (S <= K -> Rmax 0.1 (days / 365) * (vol / 100) * S * 0.05 <= c).
Proof.
  intros [HS _] [HK _] [Hd _] _ [Hv _].
  assert (HS0 : 0 < S) by lra. assert (HK0 : 0 < K) by lra.
  assert (Hd0 : 0 < days) by lra.
  assert (Hdef : vol <> 0 \/ ln (S / K) + rate / 100 * (days / 365) <> 0)
    by (left; lra).
  destruct (normCDF_defined _ (d1_defined S K days rate vol HS0 HK0 Hd0 Hdef))
    as [p1 Hp1].
  destruct (normCDF_defined _ (d2_defined S K days rate vol HS0 HK0 Hd0 Hdef))
    as [p2 Hp2].
  assert (Hb : exists b, callBase S K days rate vol = Fin b).
  { unfold callBase. rewrite Hp1, Hp2, r_fin, T_fin. cbn. eexists. reflexivity. }
  destruct Hb as [b Hb]. exists b.
  unfold priceAt, call, callPrice, callAdjusted, volatilityPremium,
    moneynessFactor, timeDecayFactor.
  rewrite Hb, sigma_fin, T_fin. cbn.
  assert (Hprem : 0 <= vol / 100 * S * 0.1 * (1 + Rabs (S + - K) / K)).
  { assert (0 <= Rabs (S + - K) / K).
    { apply Rmult_le_pos; [apply Rabs_pos | left; now apply Rinv_0_lt_compat]. }
    apply Rmult_le_pos; [| lra]. apply Rmult_le_pos; [| lra].
    apply Rmult_le_pos; lra. }
  destruct (Req_dec_T K 0); [lra |].
  destruct (Rlt_dec K S) as [Hitm | Hotm]; cbn.
  - eexists. split; [reflexivity |]. split; [reflexivity |].
    set (c := b + vol / 100 * S * 0.1 * (1 + Rabs (S + - K) / K)) in *.
    assert (Hbc : b <= c) by (unfold c; lra).
    pose proof (Rmax_l c 0.01). pose proof (Rmax_r c 0.01).
    rewrite (Rmax_left (Rmax c 0.01) 0.01) by assumption.
    split; [lra |]. split; [lra |]. split; [reflexivity | intros; lra].
  - eexists. split; [reflexivity |]. split; [reflexivity |].
    set (fl := Rmax 0.1 (days / 365) * (vol / 100) * S * 0.05) in *.
    pose proof (Rmax_l b fl). pose proof (Rmax_r b fl).
    pose proof (Rmax_l (Rmax b fl) 0.01). pose proof (Rmax_r (Rmax b fl) 0.01).
    rewrite (Rmax_left (Rmax (Rmax b fl) 0.01) 0.01) by assumption.
    split; [lra |]. split; [lra |]. split; [intros; lra | intros; lra].
Qed.

Lemma adjustment_never_lowers_call_witness :
  exists b c : R,
    callBase 110 100 30 5 25 = Fin b /\
    call (priceAt 110 100 30 5 25) = Fin c /\
    b <= c /\ 0.01 <= c /\
    (100 < 110 ->
       c = Rmax (b + 25 / 100 * 110 * 0.1 * (1 + Rabs (110 - 100) / 100)) 0.01) /\
    (110 <= 100 -> Rmax 0.1 (30 / 365) * (25 / 100) * 110 * 0.05 <= c).
Proof.
  apply (adjustment_never_lowers_call 110 100 30 5 25); lra.
Defined.

End PricerShapeProps.

(* ================================================================= *)
(** ** [handleStockChange] *)

Module PageProps.
Import Analytics Predicates IndicatorValues GeneratorSpec Page.
Import IndicatorProps IndicatorValueProps GeneratorSeriesProps BacktestProps
       SurfaceProps.

(** For draws in [0, 1) and a symbol that is not a name of
    [Object.prototype], changing the stock stores a series of 252
    well-formed candles, which is also the [technicalIndicators] of the
    analysis: annotating the generated series a second time has kept its
    base fields and its windowed indicators.  The backtest of the analysis
    has 202 records, none with a negative value, the metrics are present
    and the surface has 25 points. *)
Theorem stock_change_analysis rnd isoDate (symbol : string) (k i : nat) :
  (forall j, 0 <= rnd j < 1) ->
  ~ In symbol objectPrototypeNames ->
  (i < 252)%nat ->
  exists st k' generated kg,
    handleStockChange rnd isoDate symbol k = Some (st, k') /\
    generateMockStockData rnd isoDate symbol 252 k = Some (generated, kg) /\
    selectedStock st = symbol /\
    length (stockData st) = 252%nat /\
    technicalIndicators (analysisResults st) = stockData st /\
    (exists p q,
        nth_error (stockData st) i = Some p /\
        nth_error generated i = Some q /\
        base p = base q /\ sameIndicators p q /\ candle p) /\
    length (backtest (analysisResults st)) = 202%nat /\
    Forall (fun r => 0 <= Backtest.value r) (backtest (analysisResults st)) /\
    (exists mt, portfolioMetrics (analysisResults st) = Some mt) /\
    length (volatilitySurface (analysisResults st)) = 25%nat.
Proof.
  intros Hrnd Hsym Hi.
  assert (Hn : inherited symbol = false).
  { destruct (inherited symbol) eqn:E; [| reflexivity].
    apply inherited_In in E. contradiction. }
  destruct (generated_points rnd isoDate symbol 252 k Hrnd Hn)
    as (newData & k1 & Hgenerated & (data0 & k0 & Hdata0) & Hlen & Hgen).
  unfold handleStockChange. rewrite Hgenerated.
  pose proof (reannotation_pointwise rnd data0 k0) as Hsame.
  cbv zeta in Hsame. rewrite <- Hdata0 in Hsame. cbn [fst] in Hsame.
  specialize (Hsame k1). destruct Hsame as [Hlen2 Hsame].
  destruct (calculateTechnicalIndicators rnd newData k1) as [annotated k2].
  cbn [fst] in *.
  destruct (expirationLoop_spec rnd Hrnd Surface.expirations Surface.strikes k2)
    as (Hgrid & _ & _).
  unfold Surface.generateVolatilitySurface.
  destruct (Surface.expirationLoop rnd Surface.expirations Surface.strikes k2)
    as [surface k3].
  cbn [fst] in *.
  eexists _, _, newData, k1. split; [reflexivity |]. split; [reflexivity |].
  cbn [selectedStock stockData analysisResults technicalIndicators
       backtest portfolioMetrics volatilitySurface].
  assert (Hpts : forall j q, nth_error newData j = Some q ->
            exists p, nth_error annotated j = Some p /\
                      base p = base q /\ sameIndicators p q /\ candle p).
  { intros j q Hq. destruct (Hsame j q Hq) as (p & Hp & Hb & Hs).
    exists p. split; [exact Hp |]. split; [exact Hb |]. split; [exact Hs |].
    destruct (Hgen j q Hq) as (_ & _ & Hc).
    unfold base in Hb. injection Hb as E1 E2 E3 E4 E5 E6.
    unfold candle in *. rewrite E2, E3, E4, E5, E6. exact Hc. }
  assert (Hclose : Forall (fun p => 0 < close p) annotated).
  { apply Forall_forall. intros p Hp. apply In_nth_error in Hp.
    destruct Hp as [j Hj].
    destruct (nth_error newData j) as [q |] eqn:Hq.
    2: { apply nth_error_None in Hq. rewrite <- Hlen2 in Hq.
         apply nth_error_None in Hq. congruence. }
    destruct (Hpts j q Hq) as (p' & Hp' & _ & _ & Hc).
    assert (p' = p) by congruence. subst p'.
    destruct Hc as (Hlow & _ & [Hlc _] & _). lra. }
  split; [reflexivity |]. split; [congruence |]. split; [reflexivity |].
  split.
  { destruct (nth_error newData i) as [q |] eqn:Hq;
      [| apply nth_error_None in Hq; lia].
    destruct (Hpts i q Hq) as (p & Hp & Hrest). now exists p, q. }
  assert (Hidx : Forall (fun t => (t < length annotated)%nat)
                        (seq 50 (length annotated - 50))).
  { apply Forall_forall. intros t Ht. apply in_seq in Ht. lia. }
  pose proof (backtest_fold_inv annotated Hclose _ 10000 0 [] Hidx) as Hinv.
  unfold Backtest.backtestStrategy.
  destruct (fold_left (Backtest.backtestStep annotated)
              (seq 50 (length annotated - 50)) (10000, 0, []))
    as [[c s] results].
  destruct Hinv as [Hsound Hl]; [lra | lra | constructor |].
  split.
  { rewrite Hl, length_seq, Hlen2, Hlen. reflexivity. }
  split.
  { eapply Forall_impl; [| exact Hsound]. intros r (_ & Hv & _). exact Hv. }
  split.
  { destruct annotated as [| a0 rest]; [simpl in Hlen2; lia |].
    unfold Metrics.calculatePortfolioMetrics. cbv zeta.
    cbn [Metrics.calculateMaxDrawdown]. eexists. reflexivity. }
  rewrite <- (length_map (fun p => (Surface.expiration p, Surface.strike p))), Hgrid.
  reflexivity.
Qed.

Lemma stock_change_analysis_witness :
  let rnd := fun _ : nat => 0.5 in
  let isoDate := fun _ : Z => ""%string in
  exists st k' generated kg,
    handleStockChange rnd isoDate "TSLA" 0 = Some (st, k') /\
    generateMockStockData rnd isoDate "TSLA" 252 0 = Some (generated, kg) /\
    selectedStock st = "TSLA"%string /\
    length (stockData st) = 252%nat /\
    technicalIndicators (analysisResults st) = stockData st /\
    (exists p q,
        nth_error (stockData st) 100 = Some p /\
        nth_error generated 100 = Some q /\
        base p = base q /\ sameIndicators p q /\ candle p) /\
    length (backtest (analysisResults st)) = 202%nat /\
    Forall (fun r => 0 <= Backtest.value r) (backtest (analysisResults st)) /\
    (exists mt, portfolioMetrics (analysisResults st) = Some mt) /\
    length (volatilitySurface (analysisResults st)) = 25%nat.
Proof.
  apply (stock_change_analysis (fun _ => 0.5) (fun _ => ""%string) "TSLA" 0 100).
  - intros j. lra.
  - simpl. intros H.
    repeat (destruct H as [H | H]; [discriminate |]). contradiction.
  - lia.
Defined.

End PageProps.
